(** * LVM storage driver of lxd ([lxd/storage_lvm.go])

    A shallow embedding of the thin-provisioned volume driver.  Go strings
    are byte strings ([string]); an [error] is [option goerr] with [None]
    for [nil]; every interaction with the outside world (lvm commands,
    mount/unmount, the host filesystem, the daemon's configuration store and
    database, the container hooks, the logger) is a [Call] answered by an
    environment oracle and recorded, with its answer, in the [trace] of the
    [World]. *)

From Stdlib Require Import ZArith Ascii String List Lia.
From stdpp Require Import base tactics option list strings gmap.

Open Scope string_scope.

(** ** The Go [strings] and [path/filepath] functions the driver uses *)

Module strings.

(** [strings.HasPrefix(s, prefix)] *)
Definition HasPrefix (s pre : string) : bool := String.prefix pre s.

(** [strings.Contains(s, substr)] *)
Fixpoint Contains (s substr : string) : bool :=
  String.prefix substr s
  || match s with
     | EmptyString => false
     | String _ rest => Contains rest substr
     end.

(** Scan of [strings.Replace] for a non-empty [old]: [skip] bytes of a
    match still have to be dropped before scanning resumes, so matches
    never overlap. *)
Fixpoint replace_from (skip : nat) (old new s : string) : string :=
  match s with
  | EmptyString => EmptyString
  | String a rest =>
      match skip with
      | S k => replace_from k old new rest
      | O =>
          if String.prefix old s
          then new +:+ replace_from (String.length old - 1) old new rest
          else String a (replace_from 0 old new rest)
      end
  end.

(** With an empty [old], Go inserts [new] before every character and at
    the end. *)
Fixpoint intersperse_all (new s : string) : string :=
  match s with
  | EmptyString => new
  | String a rest => new +:+ String a (intersperse_all new rest)
  end.

(** [strings.Replace(s, old, new, -1)] *)
Definition Replace (s old new : string) : string :=
  match old with
  | EmptyString => intersperse_all new s
  | _ => replace_from 0 old new s
  end.

(** The white space of [strings.TrimSpace] on ASCII text: tab, line feed,
    vertical tab, form feed, carriage return and space. *)
Definition isSpace (a : ascii) : bool :=
  let n := nat_of_ascii a in
  ((9 <=? n) && (n <=? 13))%nat || (n =? 32)%nat.

Fixpoint TrimLeft (s : string) : string :=
  match s with
  | EmptyString => EmptyString
  | String a rest => if isSpace a then TrimLeft rest else s
  end.

Fixpoint TrimRight (s : string) : string :=
  match s with
  | EmptyString => EmptyString
  | String a rest =>
      match TrimRight rest with
      | EmptyString => if isSpace a then EmptyString else String a EmptyString
      | r => String a r
      end
  end.

(** [strings.TrimSpace(s)] *)
Definition TrimSpace (s : string) : string := TrimRight (TrimLeft s).

(** [strings.Split(s, sep)] for a one-byte separator. *)
Fixpoint Split (s : string) (sep : ascii) : list string :=
  match s with
  | EmptyString => [EmptyString]
  | String a rest =>
      if Ascii.eqb a sep then EmptyString :: Split rest sep
      else match Split rest sep with
           | x :: l => String a x :: l
           | [] => [String a EmptyString]
           end
  end.

(** [strings.SplitAfterN(s, sep, 2)] for a one-byte separator: one field
    when [sep] does not occur, otherwise the text up to and including
    the first [sep], and the rest. *)
Fixpoint SplitAfterN2 (s : string) (sep : ascii) : list string :=
  match s with
  | EmptyString => [EmptyString]
  | String a rest =>
      if Ascii.eqb a sep then [String a EmptyString; rest]
      else match SplitAfterN2 rest sep with
           | x :: l => String a x :: l
           | [] => [String a EmptyString]
           end
  end.

(** [strings.Join(elems, sep)] *)
Definition Join (elems : list string) (sep : string) : string :=
  String.concat sep elems.

End strings.

Module filepath.

(** The component pass of [filepath.Clean]: empty and [.] components are
    dropped, [..] removes the component before it (at the root it is
    dropped, in a relative path it is kept). [out] is the reversed list
    of the components kept so far. *)
Fixpoint clean_components (rooted : bool) (cs out : list string) : list string :=
  match cs with
  | [] => rev out
  | c :: cs' =>
      if decide (c = "" ∨ c = ".") then clean_components rooted cs' out
      else if decide (c = "..") then
        match out with
        | o :: out' =>
            if decide (o = "..") then clean_components rooted cs' (c :: out)
            else clean_components rooted cs' out'
        | [] =>
            if rooted then clean_components rooted cs' out
            else clean_components rooted cs' [c]
        end
      else clean_components rooted cs' (c :: out)
  end.

(** [filepath.Clean(path)] *)
Definition Clean (path : string) : string :=
  match path with
  | EmptyString => "."
  | String a _ =>
      let rooted := Ascii.eqb a "/" in
      let body := strings.Join (clean_components rooted (strings.Split path "/") []) "/" in
      match (if rooted then "/" +:+ body else body) with
      | EmptyString => "."
      | r => r
      end
  end.

(** [filepath.Join(elem...)]: leading empty elements are skipped, the
    rest is joined with the separator and cleaned. *)
Fixpoint Join (elem : list string) : string :=
  match elem with
  | [] => ""
  | e :: rest =>
      if decide (e = "") then Join rest
      else Clean (strings.Join elem "/")
  end.

(** [filepath.Base(path)]: the last element of the path, after the
    trailing slashes are removed. *)
Definition Base (path : string) : string :=
  match path with
  | EmptyString => "."
  | _ =>
      match filter (λ c, c ≠ "") (strings.Split path "/") with
      | [] => "/"
      | c :: cs => default "" (last (c :: cs))
      end
  end.

(** The part of a path up to and including its last separator. *)
Fixpoint dirPart (path : string) : string :=
  match path with
  | EmptyString => EmptyString
  | String a rest =>
      if Ascii.eqb a "/" || strings.Contains rest "/"
      then String a (dirPart rest)
      else EmptyString
  end.

(** [filepath.Dir(path)]: all but the last element of the path, cleaned. *)
Definition Dir (path : string) : string := Clean (dirPart path).

End filepath.

(** ** Name mapping *)

(** Modelled from the spec: [shared.SnapshotDelimiter] is declared in the
    [shared] package; the spec writes a snapshot as [<container>/<snapshot>]
    and the overlay as [<snapshot>/rw]. *)
Definition SnapshotDelimiter : string := "/".

Definition containerNameToLVName (containerName : string) : string :=
  let lvName := strings.Replace containerName "-" "--" in
  strings.Replace lvName SnapshotDelimiter "-".

(** ** Errors, calls and the world *)

(** A non-nil Go [error]: the [*exec.ExitError] of a command that ran and
    failed (with the exit status of its [syscall.WaitStatus], [-1] when it
    was killed by a signal), or any other error value; [msg] is what
    [Error()] and the [%v] verb print. *)
Inductive goerr :=
| ExitError (status : Z) (msg : string)
| ErrorString (msg : string).

Abbreviation error := (option goerr).

Definition Error (e : goerr) : string :=
  match e with
  | ExitError _ msg => msg
  | ErrorString msg => msg
  end.

(** [fmt.Errorf] with its format already expanded. *)
Definition Errorf (msg : string) : error := Some (ErrorString msg).

(** The [%v] verb on a [[]string]. *)
Definition fmt_strings (l : list string) : string :=
  "[" +:+ strings.Join l " " +:+ "]".

Inductive LogLevel := LvlError | LvlWarn | LvlInfo | LvlDebug.

(** What the driver asks of its surroundings. The logging context
    ([log.Ctx]) of a log call is not kept. *)
Inductive Call :=
| Exec (name : string) (args : list string)
| SysUnmount (target : string)
| OsMkdirAll (path : string)
| OsSymlink (oldname newname : string)
| OsRemove (name : string)
| OsRemoveAll (path : string)
| OsRename (oldpath newpath : string)
| IoTempDir (dir pre : string)
| DConfigValueGet (key : string)
| DConfigValueSet (key value : string)
| DbContainersList
| DbImagesGet
| InitShared
| CSnapshots (name : string)
| CTemplateApply (name trigger : string)
| ShiftRootfs (name : string)
| UntarImage (imagefname destpath : string)
| RsyncCopy (source dest : string)
| Log (lvl : LogLevel) (msg : string).

(** The answer to a call: the output of a command (or the directory
    [ioutil.TempDir] made), the names a database listing returns, and the
    error. *)
Record Resp := mkResp {
  output : string;
  names : list string;
  err : error;
}.

Definition Event : Type := Call * Resp.

(** The environment answers a call knowing everything that happened
    before it. *)
Definition Env : Type := list Event → Call → Resp.

Inductive FsNode :=
| FsDir
| FsSymlink (target : string).

(** The state the driver works on: the links and directories of the host
    filesystem, the daemon's key-value configuration, and the calls made so
    far with their answers. *)
Record World := mkWorld {
  fs : gmap string FsNode;
  dconfig : gmap string string;
  trace : list Event;
}.

Definition with_fs (f : gmap string FsNode → gmap string FsNode) (w : World) : World :=
  mkWorld (f (fs w)) (dconfig w) (trace w).

Definition with_dconfig (f : gmap string string → gmap string string) (w : World) : World :=
  mkWorld (fs w) (f (dconfig w)) (trace w).

Definition M (A : Type) : Type := World → A * World.

Definition ret {A} (a : A) : M A := λ w, (a, w).

Definition bind {A B} (m : M A) (k : A → M B) : M B :=
  λ w, let (a, w') := m w in k a w'.

Notation "'let*' x ':=' m 'in' k" := (bind m (λ x, k))
  (at level 10, x name, m at level 100, k at level 200).
Notation "'let*' ' pat ':=' m 'in' k" := (bind m (λ x, match x with pat => k end))
  (at level 10, pat pattern, m at level 100, k at level 200).
Notation "m1 ';;' m2" := (bind m1 (λ _, m2))
  (at level 100, m2 at level 200, right associativity).

(** The events a computation adds to the trace of the world it starts in. *)
Definition events {A} (m : M A) (w : World) : list Event :=
  drop (length (trace w)) (trace (m w).2).

(** A directory or link [p] lies under [root] when it is [root] itself or
    [root/] is a prefix of it. *)
Definition under (root p : string) : bool :=
  bool_decide (p = root) || String.prefix (root +:+ "/") p.

(** The container (or snapshot) entity, as far as the driver uses it:
    [Name()], [Path()], [IsPrivileged()], [IsSnapshot()] and the entities
    [Snapshots()] lists. *)
#[warnings="-register-all"]
Inductive container := Container {
  Name : string;
  Path : string;
  IsPrivileged : bool;
  IsSnapshot : bool;
  snaps : list container;
}.

Inductive storageType := storageTypeLvm.

(** The driver object: [vgName] and the fields of the embedded
    [storageShared] that [Init] sets. *)
Record storageLvm := mkStorageLvm {
  vgName : string;
  sType : option storageType;
  sTypeName : string;
  sTypeVersion : string;
}.

(** A value of a [map[string]interface{}]. *)
Inductive iface :=
| INil
| IString (s : string)
| IOther.

(** What a call of [Init] does: it returns, or the type assertion on the
    override panics. *)
Inductive InitOutcome :=
| Returned (st : option storageLvm) (e : error)
| Panicked.


Definition storageLvmDefaultThinLVSize : string := "10GiB".
Definition storageLvmDefaultThinPoolName : string := "LXDPool".

Definition nl : string := String (ascii_of_nat 10) EmptyString.

(** Modelled from the spec: [shared.VarPath] is declared in the [shared]
    package; the spec places the links at
    [<containers|images|snapshots>/<name>.lv] under the daemon's state
    directory, here the default one. *)
Definition varDir : string := "/var/lib/lxd".

Definition VarPath (path : list string) : string :=
  filepath.Join (varDir :: path).

(** Modelled from the spec: [containerPath] is declared with the container
    type; containers live under [containers], snapshots under
    [snapshots]. *)
Definition containerPath (name : string) (isSnapshot : bool) : string :=
  if isSnapshot then VarPath ["snapshots"; name] else VarPath ["containers"; name].

(** The loop of [Init] over the lines of [lvm version]: the text after the
    first colon of every line that has one, joined with [" / "] (no
    separator before the text of the first line). *)
Fixpoint lvmVersionFields (idx : nat) (lines : list string) (version : string) : string :=
  match lines with
  | [] => version
  | line :: rest =>
      let fields := strings.SplitAfterN2 line ":" in
      if (length fields <? 2)%nat then lvmVersionFields (S idx) rest version
      else
        let version := if (0 <? idx)%nat then version +:+ " / " else version in
        lvmVersionFields (S idx) rest (version +:+ strings.TrimSpace (nth 1 fields ""))
  end.

(** ** The driver *)

Section Driver.

Variable env : Env.

(** Modelled from the spec: [storageTypeToString] is declared with the
    storage interface; only the name it gives the driver type is used. *)
Variable storageTypeToString : storageType → string.

(** *** Calls *)

Definition call (c : Call) : M Resp :=
  λ w, let r := env (trace w) c in
       (r, mkWorld (fs w) (dconfig w) (trace w ++ [(c, r)])).

Definition modify_fs (f : gmap string FsNode → gmap string FsNode) : M unit :=
  λ w, (tt, with_fs f w).

(** [s.log.Error], [shared.Log.Debug], [shared.Logf] and the like. *)
Definition log (lvl : LogLevel) (msg : string) : M unit :=
  call (Log lvl msg);; ret tt.

(** [exec.Command(name, args...).CombinedOutput()] (and [Output()]). *)
Definition exec_Command (name : string) (args : list string) : M (string * error) :=
  let* r := call (Exec name args) in ret (output r, err r).

Definition syscall_Unmount (target : string) : M error :=
  let* r := call (SysUnmount target) in ret (err r).

Definition os_MkdirAll (path : string) : M error :=
  let* r := call (OsMkdirAll path) in
  match err r with
  | Some e => ret (Some e)
  | None =>
      modify_fs (λ m, match m !! path with
                      | Some _ => m
                      | None => <[path := FsDir]> m
                      end);;
      ret None
  end.

Definition os_Symlink (oldname newname : string) : M error :=
  let* r := call (OsSymlink oldname newname) in
  match err r with
  | Some e => ret (Some e)
  | None => modify_fs (λ m, <[newname := FsSymlink oldname]> m);; ret None
  end.

Definition os_Remove (name : string) : M error :=
  let* r := call (OsRemove name) in
  match err r with
  | Some e => ret (Some e)
  | None => modify_fs (λ m, delete name m);; ret None
  end.

Definition os_RemoveAll (path : string) : M error :=
  let* r := call (OsRemoveAll path) in
  match err r with
  | Some e => ret (Some e)
  | None =>
      modify_fs (λ m, filter (λ kv : string * FsNode, under path kv.1 = false) m);;
      ret None
  end.

Definition os_Rename (oldpath newpath : string) : M error :=
  let* r := call (OsRename oldpath newpath) in
  match err r with
  | Some e => ret (Some e)
  | None =>
      modify_fs (λ m, match m !! oldpath with
                      | Some n => <[newpath := n]> (delete oldpath m)
                      | None => m
                      end);;
      ret None
  end.

(** [ioutil.TempDir(dir, prefix)]: the environment picks the name. *)
Definition ioutil_TempDir (dir pre : string) : M (string * error) :=
  let* r := call (IoTempDir dir pre) in
  match err r with
  | Some e => ret ("", Some e)
  | None => modify_fs (λ m, <[output r := FsDir]> m);; ret (output r, None)
  end.

(** Modelled from the spec: [shared.PathExists] is declared in the
    [shared] package; a link record exists when its path does. *)
Definition PathExists (name : string) : M bool :=
  λ w, (bool_decide (is_Some (fs w !! name)), w).

(** Modelled from the spec: [Daemon.ConfigValueGet] and
    [Daemon.ConfigValueSet] are declared with the daemon; the spec has
    them as get and set of string settings in a persistent key-value
    store, an unset key reading as the empty string. *)
Definition ConfigValueGet (key : string) : M (string * error) :=
  let* r := call (DConfigValueGet key) in
  match err r with
  | Some e => ret ("", Some e)
  | None => λ w, ((default "" (dconfig w !! key), None), w)
  end.

Definition ConfigValueSet (key value : string) : M error :=
  let* r := call (DConfigValueSet key value) in
  match err r with
  | Some e => ret (Some e)
  | None => λ w, (None, with_dconfig (λ m, <[key := value]> m) w)
  end.

(** [dbContainersList(d.db, cTypeRegular)] and [dbImagesGet(d.db, false)]:
    name listings of the daemon's database. *)
Definition dbContainersList : M (list string * error) :=
  let* r := call DbContainersList in ret (names r, err r).

Definition dbImagesGet : M (list string * error) :=
  let* r := call DbImagesGet in ret (names r, err r).

(** The hooks of the container entity and the helpers of other files of
    the daemon: only their success or failure reaches the driver. *)
Definition container_Snapshots (c : container) : M error :=
  let* r := call (CSnapshots (Name c)) in ret (err r).

Definition container_TemplateApply (c : container) (trigger : string) : M error :=
  let* r := call (CTemplateApply (Name c) trigger) in ret (err r).

Definition shiftRootfs (c : container) : M error :=
  let* r := call (ShiftRootfs (Name c)) in ret (err r).

Definition untarImage (imagefname destpath : string) : M error :=
  let* r := call (UntarImage imagefname destpath) in ret (err r).

Definition storageRsyncCopy (source dest : string) : M (string * error) :=
  let* r := call (RsyncCopy source dest) in ret (output r, err r).

Definition initShared : M error :=
  let* r := call InitShared in ret (err r).

(** *** Pool guard *)

Definition storageLVMCheckVolumeGroup (vgName : string) : M error :=
  let* '(output, err) := exec_Command "vgdisplay" ["-s"; vgName] in
  match err with
  | Some _ =>
      log LvlDebug "vgdisplay failed to find vg";;
      ret (Errorf ("LVM volume group '" +:+ vgName +:+ "' not found"))
  | None => ret None
  end.

Definition storageLVMThinpoolExists (vgName poolName : string) : M (bool * error) :=
  let* '(output, err) :=
    exec_Command "vgs" ["--noheadings"; "-o"; "lv_attr"; vgName +:+ "/" +:+ poolName] in
  match err with
  | Some e =>
      match e with
      | ExitError status _ =>
          if decide (status = 5%Z) then ret (false, None)
          else ret (false, Errorf ("Error checking for pool '" +:+ poolName +:+ "'"))
      | ErrorString _ =>
          ret (false, Errorf ("Error checking for pool '" +:+ poolName +:+ "'"))
      end
  | None =>
      let attrs := strings.TrimSpace output in
      if strings.HasPrefix attrs "t" then ret (true, None)
      else ret (false, Errorf ("Pool named '" +:+ poolName
                               +:+ "' exists but is not a thin pool."))
  end.

(** The two loops of [storageLVMGetThinPoolUsers]. *)
Fixpoint containerLinkUsers (cNames results : list string) : M (list string) :=
  match cNames with
  | [] => ret results
  | cName :: rest =>
      let lvLinkPath :=
        if strings.Contains cName SnapshotDelimiter
        then VarPath ["snapshots"; cName +:+ ".lv"]
        else VarPath ["containers"; cName +:+ ".lv"] in
      let* ex := PathExists lvLinkPath in
      containerLinkUsers rest (if ex then results ++ [cName] else results)
  end.

Fixpoint imageLinkUsers (imageNames results : list string) : M (list string) :=
  match imageNames with
  | [] => ret results
  | imageName :: rest =>
      let imageLinkPath := VarPath ["images"; imageName +:+ ".lv"] in
      let* ex := PathExists imageLinkPath in
      imageLinkUsers rest (if ex then results ++ [imageName] else results)
  end.

Definition storageLVMGetThinPoolUsers : M (list string * error) :=
  let results := [] in
  let* '(vgname, err) := ConfigValueGet "storage.lvm_vg_name" in
  match err with
  | Some _ => ret (results, Errorf "Error getting lvm_vg_name config")
  | None =>
  if decide (vgname = "") then ret (results, None) else
  let* '(poolname, err) := ConfigValueGet "storage.lvm_thinpool_name" in
  match err with
  | Some _ => ret (results, Errorf "Error getting lvm_thinpool_name config")
  | None =>
  if decide (poolname = "") then ret (results, None) else
  let* '(cNames, err) := dbContainersList in
  match err with
  | Some e => ret (results, Some e)
  | None =>
  let* results := containerLinkUsers cNames results in
  let* '(imageNames, err) := dbImagesGet in
  match err with
  | Some e => ret (results, Some e)
  | None =>
  let* results := imageLinkUsers imageNames results in
  ret (results, None)
  end end end end.

Definition storageLVMSetThinPoolNameConfig (poolname : string) : M error :=
  let* '(users, err) := storageLVMGetThinPoolUsers in
  match err with
  | Some e => ret (Errorf ("Error checking if a pool is already in use: " +:+ Error e))
  | None =>
  if (0 <? length users)%nat then
    ret (Errorf ("Can not change LVM config. Images or containers are still using LVs: "
                 +:+ fmt_strings users))
  else
  let* '(vgname, err) := ConfigValueGet "storage.lvm_vg_name" in
  match err with
  | Some e => ret (Errorf ("Error getting lvm_vg_name config: " +:+ Error e))
  | None =>
  let* err :=
    if decide (poolname = "") then ret None else
    if decide (vgname = "") then
      ret (Errorf "Can not set lvm_thinpool_name without lvm_vg_name set.")
    else
    let* '(poolExists, err) := storageLVMThinpoolExists vgname poolname in
    match err with
    | Some e =>
        ret (Errorf ("Error checking for thin pool '" +:+ poolname +:+ "' in '"
                     +:+ vgname +:+ "': " +:+ Error e))
    | None =>
        if negb poolExists then
          ret (Errorf ("Pool '" +:+ poolname +:+ "' does not exist in Volume Group '"
                       +:+ vgname +:+ "'"))
        else ret None
    end in
  match err with
  | Some e => ret (Some e)
  | None =>
  let* err := ConfigValueSet "storage.lvm_thinpool_name" poolname in
  match err with
  | Some e => ret (Some e)
  | None => ret None
  end end end end.

Definition storageLVMSetVolumeGroupNameConfig (vgname : string) : M error :=
  let* '(users, err) := storageLVMGetThinPoolUsers in
  match err with
  | Some e => ret (Errorf ("Error checking if a pool is already in use: " +:+ Error e))
  | None =>
  if (0 <? length users)%nat then
    ret (Errorf ("Can not change LVM config. Images or containers are still using LVs: "
                 +:+ fmt_strings users))
  else
  let* err :=
    if decide (vgname = "") then ret None
    else storageLVMCheckVolumeGroup vgname in
  match err with
  | Some e => ret (Some e)
  | None =>
  let* err := ConfigValueSet "storage.lvm_vg_name" vgname in
  match err with
  | Some e => ret (Some e)
  | None => ret None
  end end end.

(** *** Volume operations *)

Definition createDefaultThinPool (s : storageLvm) : M (string * error) :=
  let* '(output, err) :=
    exec_Command "lvcreate"
      ["--poolmetadatasize"; "1G"; "-l"; "100%FREE"; "--thinpool";
       vgName s +:+ "/" +:+ storageLvmDefaultThinPoolName] in
  match err with
  | Some _ =>
      log LvlDebug "Could not create thin pool";;
      ret ("", Errorf ("Could not create LVM thin pool named "
                       +:+ storageLvmDefaultThinPoolName))
  | None => ret (storageLvmDefaultThinPoolName, None)
  end.

Definition createThinLV (s : storageLvm) (lvname : string) : M (string * error) :=
  let* '(poolname, err) := ConfigValueGet "storage.lvm_thinpool_name" in
  match err with
  | Some e => ret ("", Errorf ("Error checking server config, err=" +:+ Error e))
  | None =>
  let* '(poolname, err) :=
    if decide (poolname = "") then
      let* '(poolname, err) := createDefaultThinPool s in
      match err with
      | Some e => ret ("", Errorf ("Error creating LVM thin pool: " +:+ Error e))
      | None =>
          let* err := storageLVMSetThinPoolNameConfig poolname in
          match err with
          | Some e =>
              log LvlError "Setting thin pool name";;
              ret ("", Errorf ("Error setting LVM thin pool config: " +:+ Error e))
          | None => ret (poolname, None)
          end
      end
    else ret (poolname, None) in
  match err with
  | Some e => ret ("", Some e)
  | None =>
  let* '(output, err) :=
    exec_Command "lvcreate"
      ["--thin"; "-n"; lvname; "--virtualsize"; storageLvmDefaultThinLVSize;
       vgName s +:+ "/" +:+ poolname] in
  match err with
  | Some _ =>
      log LvlDebug "Could not create LV";;
      ret ("", Errorf ("Could not create thin LV named " +:+ lvname))
  | None =>
  let lvpath := "/dev/" +:+ vgName s +:+ "/" +:+ lvname in
  let* '(output, err) :=
    exec_Command "mkfs.ext4"
      ["-E"; "nodiscard,lazy_itable_init=0,lazy_journal_init=0"; lvpath] in
  match err with
  | Some e =>
      log LvlError "mkfs.ext4";;
      ret ("", Errorf ("Error making filesystem on image LV: " +:+ Error e))
  | None => ret (lvpath, None)
  end end end end.

Definition removeLV (s : storageLvm) (lvname : string) : M error :=
  let* '(output, err) :=
    exec_Command "lvremove" ["-f"; vgName s +:+ "/" +:+ lvname] in
  match err with
  | Some _ =>
      log LvlDebug "Could not remove LV";;
      ret (Errorf ("Could not remove LV named " +:+ lvname))
  | None => ret None
  end.

Definition createSnapshotLV (s : storageLvm) (lvname origlvname : string)
    (readonly : bool) : M (string * error) :=
  let* '(output, err) :=
    exec_Command "lvcreate"
      ["-kn"; "-n"; lvname; "-s"; "/dev/" +:+ vgName s +:+ "/" +:+ origlvname] in
  match err with
  | Some _ =>
      log LvlDebug "Could not create LV snapshot";;
      ret ("", Errorf ("Could not create snapshot LV named " +:+ lvname))
  | None =>
  let snapshotFullName := "/dev/" +:+ vgName s +:+ "/" +:+ lvname in
  let* '(output, err) :=
    if readonly then exec_Command "lvchange" ["-ay"; "-pr"; snapshotFullName]
    else exec_Command "lvchange" ["-ay"; snapshotFullName] in
  match err with
  | Some e =>
      ret ("", Errorf ("Could not activate new snapshot '" +:+ lvname +:+ "': "
                       +:+ Error e +:+ nl +:+ "output:" +:+ output))
  | None => ret (snapshotFullName, None)
  end end.

Definition isLVMContainer (c : container) : M bool :=
  PathExists (Path c +:+ ".lv").

Definition renameLV (s : storageLvm) (oldName newName : string) : M (string * error) :=
  let* '(output, err) := exec_Command "lvrename" [vgName s; oldName; newName] in
  ret (output, err).

(** *** Driver initialisation *)

Definition Init (s : storageLvm) (config : gmap string iface)
    : M (storageLvm * InitOutcome) :=
  let s := mkStorageLvm (vgName s) (Some storageTypeLvm)
                        (storageTypeToString storageTypeLvm) (sTypeVersion s) in
  let* err := initShared in
  match err with
  | Some e => ret (s, Returned (Some s) (Some e))
  | None =>
  let* '(output, err) := exec_Command "lvm" ["version"] in
  match err with
  | Some e =>
      ret (s, Returned None
                (Errorf ("Error getting LVM version: " +:+ Error e +:+ nl
                         +:+ "output:'" +:+ output +:+ "'")))
  | None =>
  let lines := strings.Split output (ascii_of_nat 10) in
  let s := mkStorageLvm (vgName s) (sType s) (sTypeName s)
                        (lvmVersionFields 0 lines "") in
  match default INil (config !! "vgName") with
  | INil =>
      let* '(vgName, err) := ConfigValueGet "storage.lvm_vg_name" in
      match err with
      | Some e =>
          ret (s, Returned (Some s)
                    (Errorf ("Error checking server config: " +:+ Error e)))
      | None =>
      if decide (vgName = "") then
        ret (s, Returned (Some s) (Errorf "LVM isn't enabled"))
      else
      let* err := storageLVMCheckVolumeGroup vgName in
      match err with
      | Some e => ret (s, Returned (Some s) (Some e))
      | None =>
          let s := mkStorageLvm vgName (sType s) (sTypeName s) (sTypeVersion s) in
          ret (s, Returned (Some s) None)
      end end
  | IString v =>
      let s := mkStorageLvm v (sType s) (sTypeName s) (sTypeVersion s) in
      ret (s, Returned (Some s) None)
  | IOther => ret (s, Panicked)
  end end end.

(** *** Container and image lifecycle *)

Definition ContainerCreate (s : storageLvm) (c : container) : M error :=
  let containerName := containerNameToLVName (Name c) in
  let* '(lvpath, err) := createThinLV s containerName in
  match err with
  | Some e => ret (Some e)
  | None =>
  let* err := os_MkdirAll (Path c) in
  match err with
  | Some e => ret (Some e)
  | None =>
  let dst := VarPath ["containers"; Name c +:+ ".lv"] in
  let* err := os_Symlink lvpath dst in
  match err with
  | Some e => ret (Some e)
  | None => ret None
  end end end.

Definition ContainerDelete (s : storageLvm) (c : container) : M error :=
  let lvName := containerNameToLVName (Name c) in
  let* err := removeLV s lvName in
  match err with
  | Some e => ret (Some e)
  | None =>
  let lvLinkPath := Path c +:+ ".lv" in
  let* err := os_Remove lvLinkPath in
  match err with
  | Some e => ret (Some e)
  | None =>
  let cPath := Path c in
  let* err := os_RemoveAll cPath in
  match err with
  | Some e =>
      log LvlError "ContainerDelete: failed to remove path";;
      ret (Errorf ("Cleaning up " +:+ cPath +:+ ": " +:+ Error e))
  | None => ret None
  end end end.

Definition ImageCreate (s : storageLvm) (fingerprint : string) : M error :=
  let finalName := VarPath ["images"; fingerprint] in
  let* '(lvpath, err) := createThinLV s fingerprint in
  match err with
  | Some e =>
      log LvlError "LVMCreateThinLV";;
      ret (Errorf ("Error Creating LVM LV for new image: " +:+ Error e))
  | None =>
  let dst := VarPath ["images"; fingerprint +:+ ".lv"] in
  let* err := os_Symlink lvpath dst in
  match err with
  | Some e => ret (Some e)
  | None =>
  let* '(tempLVMountPoint, err) := ioutil_TempDir (VarPath ["images"]) "tmp_lv_mnt" in
  match err with
  | Some e => ret (Some e)
  | None =>
  let* result :=
    let* '(output, err) :=
      exec_Command "mount" ["-o"; "discard"; lvpath; tempLVMountPoint] in
    match err with
    | Some e =>
        log LvlInfo ("Error mounting image LV for untarring: '" +:+ output +:+ "'");;
        ret (Errorf ("Error mounting image LV: " +:+ Error e))
    | None =>
    let* untarErr := untarImage finalName tempLVMountPoint in
    let* err := syscall_Unmount tempLVMountPoint in
    match err with
    | Some e =>
        log LvlWarn "could not unmount LV. Will not remove";;
        match untarErr with
        | None => ret (Some e)
        | Some ue =>
            ret (Errorf ("Error unmounting '" +:+ tempLVMountPoint
                         +:+ "' during cleanup of error " +:+ Error ue))
        end
    | None => ret untarErr
    end end in
  (* the deferred function *)
  let* err := os_RemoveAll tempLVMountPoint in
  match err with
  | Some _ => log LvlError "Deleting temporary LVM mount point"
  | None => ret tt
  end;;
  ret result
  end end end.

Definition ContainerCreateFromImage (s : storageLvm) (c : container)
    (imageFingerprint : string) : M error :=
  let imageLVFilename := VarPath ["images"; imageFingerprint +:+ ".lv"] in
  let* ex := PathExists imageLVFilename in
  let* err := if negb ex then ImageCreate s imageLVFilename else ret None in
  match err with
  | Some e => ret (Some e)
  | None =>
  let containerName := containerNameToLVName (Name c) in
  let* '(lvpath, err) := createSnapshotLV s containerName imageFingerprint false in
  match err with
  | Some e => ret (Some e)
  | None =>
  let destPath := Path c in
  let* err := os_MkdirAll destPath in
  match err with
  | Some e => ret (Errorf ("Error creating container directory: " +:+ Error e))
  | None =>
  let dst := VarPath ["containers"; Name c +:+ ".lv"] in
  let* err := os_Symlink lvpath dst in
  match err with
  | Some e => ret (Some e)
  | None =>
  let* '(output, err) := exec_Command "mount" ["-o"; "discard"; lvpath; destPath] in
  match err with
  | Some e =>
      ContainerDelete s c;;
      ret (Errorf ("Error mounting snapshot LV: " +:+ Error e +:+ nl
                   +:+ "output:'" +:+ output +:+ "'"))
  | None =>
  let* failed :=
    if negb (IsPrivileged c) then
      let* err := shiftRootfs c in
      match err with
      | Some e =>
          let* err2 := syscall_Unmount destPath in
          match err2 with
          | Some e2 =>
              ret (Errorf ("Error in umount: '" +:+ Error e2
                           +:+ "' while cleaning up after error in shiftRootfs: '"
                           +:+ Error e +:+ "'"))
          | None =>
              ContainerDelete s c;;
              ret (Errorf ("Error in shiftRootfs: " +:+ Error e))
          end
      | None => ret None
      end
    else ret None in
  match failed with
  | Some e => ret (Some e)
  | None =>
  let* err := container_TemplateApply c "create" in
  match err with
  | Some _ =>
      log LvlError
        "Error in create template during ContainerCreateFromImage, continuing to unmount"
  | None => ret tt
  end;;
  let* umounterr := syscall_Unmount destPath in
  match umounterr with
  | Some ue =>
      ret (Errorf ("Error unmounting '" +:+ destPath +:+ "' after shiftRootfs: "
                   +:+ Error ue))
  | None => ret err
  end end end end end end end.

Definition createSnapshotContainer (s : storageLvm)
    (snapshotContainer sourceContainer : container) (readonly : bool) : M error :=
  let srcName := containerNameToLVName (Name sourceContainer) in
  let destName := containerNameToLVName (Name snapshotContainer) in
  log LvlDebug "Creating snapshot";;
  let* '(lvpath, err) := createSnapshotLV s destName srcName readonly in
  match err with
  | Some e => ret (Errorf ("Error creating snapshot LV: " +:+ Error e))
  | None =>
  let destPath := Path snapshotContainer in
  let* err := os_MkdirAll destPath in
  match err with
  | Some e => ret (Errorf ("Error creating container directory: " +:+ Error e))
  | None =>
  let dest := Path snapshotContainer +:+ ".lv" in
  let* err := os_Symlink lvpath dest in
  match err with
  | Some e => ret (Some e)
  | None => ret None
  end end end.

Definition ContainerStart (s : storageLvm) (c : container) : M error :=
  let lvName := containerNameToLVName (Name c) in
  let lvpath := "/dev/" +:+ vgName s +:+ "/" +:+ lvName in
  let* '(output, err) := exec_Command "mount" ["-o"; "discard"; lvpath; Path c] in
  match err with
  | Some e =>
      ret (Errorf ("Error mounting snapshot LV path='" +:+ Path c +:+ "': "
                   +:+ Error e +:+ nl +:+ "output:'" +:+ output +:+ "'"))
  | None => ret None
  end.

Definition ContainerStop (s : storageLvm) (c : container) : M error :=
  let* err := syscall_Unmount (Path c) in
  match err with
  | Some e =>
      ret (Errorf ("failed to unmount container path '" +:+ Path c +:+ "'." +:+ nl
                   +:+ "Error: " +:+ Error e))
  | None => ret None
  end.

Definition ContainerCopy (s : storageLvm) (c sourceContainer : container) : M error :=
  let* lvm := isLVMContainer sourceContainer in
  let* failed :=
    if lvm then
      let* err := createSnapshotContainer s c sourceContainer false in
      match err with
      | Some e =>
          log LvlError "Error creating snapshot LV for copy";;
          ret (Some e)
      | None => ret None
      end
    else
      log LvlInfo "Copy from Non-LVM container";;
      let* err := ContainerCreate s c in
      match err with
      | Some e =>
          log LvlError "Error creating empty container";;
          ret (Some e)
      | None =>
      let* err := ContainerStart s c in
      match err with
      | Some e =>
          log LvlError "Error starting/mounting container";;
          ContainerDelete s c;;
          ret (Some e)
      | None =>
      let* '(output, err) := storageRsyncCopy (Path sourceContainer) (Path c) in
      match err with
      | Some _ =>
          log LvlError "ContainerCopy: rsync failed";;
          ContainerDelete s c;;
          ret (Errorf ("rsync failed: " +:+ output))
      | None =>
      let* err := ContainerStop s c in
      match err with
      | Some e => ret (Some e)
      | None => ret None
      end end end end in
  match failed with
  | Some e => ret (Some e)
  | None => container_TemplateApply c "copy"
  end.

(** The loop of [ContainerRename] over the snapshots; [rename] stands for
    [ContainerRename] itself, which the loop calls on every snapshot. *)
Fixpoint renameSnapshots (rename : container → string → M error)
    (newName : string) (snaps : list container) : M error :=
  match snaps with
  | [] => ret None
  | snap :: rest =>
      let baseSnapName := filepath.Base (Name snap) in
      let newSnapshotName := newName +:+ SnapshotDelimiter +:+ baseSnapName in
      let* err := rename snap newSnapshotName in
      match err with
      | Some e => ret (Some e)
      | None => renameSnapshots rename newName rest
      end
  end.

(** One call of [ContainerRename]. *)
Definition ContainerRename_body (rename : container → string → M error)
    (s : storageLvm) (c : container) (newContainerName : string) : M error :=
  let oldName := containerNameToLVName (Name c) in
  let newName := containerNameToLVName newContainerName in
  let* '(output, err) := renameLV s oldName newName in
  match err with
  | Some e =>
      log LvlError "Failed to rename a container LV";;
      ret (Errorf ("Failed to rename a container LV, oldName='" +:+ oldName
                   +:+ "', newName='" +:+ newName +:+ "', err='" +:+ Error e +:+ "'"))
  | None =>
  let oldSymPath := Path c +:+ ".lv" in
  let newSymPath := containerPath newName false +:+ ".lv" in
  let* err := os_Rename oldSymPath newSymPath in
  match err with
  | Some e =>
      log LvlError "Rename of the symlink failed";;
      ret (Some e)
  | None =>
  if negb (IsSnapshot c) then
    let* err := container_Snapshots c in
    match err with
    | Some e => ret (Some e)
    | None => renameSnapshots rename newName (snaps c)
    end
  else ret None
  end end.

Fixpoint ContainerRename (s : storageLvm) (c : container) {struct c}
    : string → M error :=
  ContainerRename_body (λ snap, ContainerRename s snap) s c.

(** *** Restore, snapshots and image removal *)

(** Modelled from the spec: [shared.PathIsEmpty] is declared in the
    [shared] package; a directory is empty when it exists and nothing lies
    under it, and a path that does not exist gives an error. *)
Definition PathIsEmpty (path : string) : M (bool * error) :=
  λ w, match fs w !! path with
       | None => ((false, Errorf ("open " +:+ path +:+ ": no such file or directory")), w)
       | Some _ =>
           ((bool_decide
               (filter (λ kv : string * FsNode, under path kv.1 = true ∧ kv.1 ≠ path) (fs w)
                = ∅), None), w)
       end.

Definition ContainerCanRestore (s : storageLvm) (c sourceContainer : container)
    : M error :=
  ret None.

Definition ContainerRestore (s : storageLvm) (c sourceContainer : container)
    : M error :=
  let srcName := containerNameToLVName (Name sourceContainer) in
  let destName := containerNameToLVName (Name c) in
  let* err := removeLV s destName in
  match err with
  | Some e => ret (Errorf ("Error removing LV about to be restored over: " +:+ Error e))
  | None =>
  let* '(_, err) := createSnapshotLV s destName srcName false in
  match err with
  | Some e => ret (Errorf ("Error creating snapshot LV: " +:+ Error e))
  | None => ret None
  end end.

Definition ContainerSnapshotCreate (s : storageLvm)
    (snapshotContainer sourceContainer : container) : M error :=
  createSnapshotContainer s snapshotContainer sourceContainer true.

Definition ContainerSnapshotDelete (s : storageLvm) (snapshotContainer : container)
    : M error :=
  let* err := ContainerDelete s snapshotContainer in
  match err with
  | Some e =>
      ret (Errorf ("Error deleting snapshot " +:+ Name snapshotContainer +:+ ": "
                   +:+ Error e))
  | None =>
  let oldPathParent := filepath.Dir (Path snapshotContainer) in
  let* '(ok, _) := PathIsEmpty oldPathParent in
  (if ok then os_Remove oldPathParent;; ret tt else ret tt);;
  ret None
  end.

Definition ContainerSnapshotRename (s : storageLvm) (snapshotContainer : container)
    (newContainerName : string) : M error :=
  let oldName := containerNameToLVName (Name snapshotContainer) in
  let newName := containerNameToLVName newContainerName in
  let* '(output, err) := renameLV s oldName newName in
  match err with
  | Some e =>
      log LvlError "Failed to rename a snapshot LV";;
      ret (Errorf ("Failed to rename a container LV, oldName='" +:+ oldName
                   +:+ "', newName='" +:+ newName +:+ "', err='" +:+ Error e +:+ "'"))
  | None =>
  let oldPath := Path snapshotContainer in
  let oldSymPath := oldPath +:+ ".lv" in
  let newPath := containerPath newName true in
  let newSymPath := newPath +:+ ".lv" in
  let* err := os_Rename oldSymPath newSymPath in
  match err with
  | Some e =>
      log LvlError "Failed to rename symlink";;
      ret (Errorf ("Failed to rename symlink err='" +:+ Error e +:+ "'"))
  | None =>
  (if strings.Contains (Name snapshotContainer) "/" then
     let* ex := PathExists (filepath.Dir newPath) in
     if negb ex then os_MkdirAll (filepath.Dir newPath);; ret tt else ret tt
   else ret tt);;
  (if strings.Contains (Name snapshotContainer) "/" then
     let* '(ok, _) := PathIsEmpty (filepath.Dir oldPath) in
     if ok then os_Remove (filepath.Dir oldPath);; ret tt else ret tt
   else ret tt);;
  ret None
  end end.


Definition ContainerSnapshotStop (s : storageLvm) (c : container) : M error :=
  let* err := ContainerStop s c in
  match err with
  | Some e => ret (Some e)
  | None =>
  let lvName := containerNameToLVName (Name c +:+ "/rw") in
  let* err := removeLV s lvName in
  match err with
  | Some e => ret (Some e)
  | None => ret None
  end end.

Definition ContainerSnapshotCreateEmpty (s : storageLvm) (snapshotContainer : container)
    : M error :=
  ContainerCreate s snapshotContainer.

Definition ImageDelete (s : storageLvm) (fingerprint : string) : M error :=
  let* err := removeLV s fingerprint in
  match err with
  | Some e => ret (Some e)
  | None =>
  let lvsymlink := VarPath ["images"; fingerprint] +:+ ".lv" in
  let* err := os_Remove lvsymlink in
  match err with
  | Some e =>
      ret (Errorf ("Failed to remove symlink to deleted image LV: '" +:+ lvsymlink
                   +:+ "': " +:+ Error e))
  | None => ret None
  end end.

End Driver.

(** ** Vocabulary of the statements *)

Open Scope list_scope.

(** [m], run in [w], returns [a], leaves the world [w'] and makes the calls
    [evs] (each with its answer), in this order. *)
Definition runs {A} (m : M A) (w : World) (a : A) (w' : World) (evs : list Event) : Prop :=
  m w = (a, w') ∧ trace w' = trace w ++ evs.

(** All the calls of [evs] belong to the class [cls]. *)
Definition events_in (cls : Call → bool) (evs : list Event) : Prop :=
  Forall (λ e : Event, cls e.1 = true) evs.

(** Calls that query or allocate in the volume group, read or write the
    daemon's configuration, list its database, or log. *)
Definition pool_call (c : Call) : bool :=
  match c with
  | Exec name _ =>
      bool_decide (name ∈ ["lvcreate"; "lvchange"; "mkfs.ext4"; "vgs"; "vgdisplay"])
  | DConfigValueGet _ | DConfigValueSet _ _ | DbContainersList | DbImagesGet
  | Log _ _ => true
  | _ => false
  end.

(** What [ContainerCreate] does besides. *)
Definition create_call (c : Call) : bool :=
  pool_call c
  || match c with
     | OsMkdirAll _ | OsSymlink _ _ => true
     | _ => false
     end.

(** What [ImageCreate] does besides. *)
Definition image_call (c : Call) : bool :=
  pool_call c
  || match c with
     | Exec name _ => bool_decide (name = "mount")
     | OsSymlink _ _ | IoTempDir _ _ | UntarImage _ _ | SysUnmount _
     | OsRemoveAll _ => true
     | _ => false
     end.

(** The calls of [ContainerDelete]. *)
Definition delete_call (c : Call) : bool :=
  match c with
  | Exec name _ => bool_decide (name = "lvremove")
  | OsRemove _ | OsRemoveAll _ | Log _ _ => true
  | _ => false
  end.

(** The link record of a container or snapshot name, and of an image, as
    [storageLVMGetThinPoolUsers] looks them up. *)
Definition containerLink (cName : string) : string :=
  if strings.Contains cName SnapshotDelimiter
  then VarPath ["snapshots"; cName +:+ ".lv"]
  else VarPath ["containers"; cName +:+ ".lv"].

Definition imageLink (imageName : string) : string :=
  VarPath ["images"; imageName +:+ ".lv"].

Definition linked (link : string → string) (w : World) (l : list string) : list string :=
  filter (λ n, is_Some (fs w !! link n)) l.


(** The trace of [m] only grows. *)
Definition extends {A} (m : M A) : Prop :=
  ∀ w, ∃ evs, trace (m w).2 = trace w ++ evs.

(** A [rename] that only records, in the log, the snapshot and the new
    name it is called with: put in place of the nested call of
    [ContainerRename], it shows the arguments of that call. *)
Definition recordRename (env : Env) (snap : container) (newName : string) : M error :=
  log env LvlDebug (Name snap +:+ " => " +:+ newName);; ret None.

(** The two keys of the daemon's configuration the driver uses, and the
    stored value of a key, the empty string when it is unset. *)
Definition vgKey : string := "storage.lvm_vg_name".

Definition poolKey : string := "storage.lvm_thinpool_name".

Definition stored (w : World) (key : string) : string :=
  default "" (dconfig w !! key).

(** The calls of [ContainerRename]. *)
Definition rename_call (c : Call) : bool :=
  match c with
  | Exec name _ => bool_decide (name = "lvrename")
  | OsRename _ _ | CSnapshots _ | Log _ _ => true
  | _ => false
  end.

(** [m] leaves the configuration alone and makes only calls of a
    rename. *)
Definition renames_only (m : M error) : Prop :=
  ∀ w r w', m w = (r, w') →
    dconfig w' = dconfig w
    ∧ ∃ evs, trace w' = trace w ++ evs ∧ events_in rename_call evs.

(** ** Statements the driver does not satisfy *)

(** The reading of C1 that the code does not satisfy: when the "create"
    template hook fails and every other call succeeds,
    [ContainerCreateFromImage] returns [nil]. *)
Definition template_error_swallowed : Prop :=
  ∀ env s c fingerprint w r w' evs,
    runs (ContainerCreateFromImage env s c fingerprint) w r w' evs →
    (∃ rt, (CTemplateApply (Name c) "create", rt) ∈ evs ∧ err rt ≠ None) →
    (∀ c' r', (c', r') ∈ evs → c' ≠ CTemplateApply (Name c) "create" → err r' = None) →
    r = None.

(** The reading of C4 that the code does not satisfy: whenever [Init]
    succeeds, the volume group it has bound is not empty and was checked
    with [vgdisplay]. *)
Definition Init_validates_every_source : Prop :=
  ∀ env typeName s config w s' st w' evs,
    runs (Init env typeName s config) w (s', Returned st None) w' evs →
    vgName s' ≠ ""
    ∧ ∃ rv, (Exec "vgdisplay" ["-s"; vgName s'], rv) ∈ evs ∧ err rv = None.

(** The destination is deleted before [ContainerCopy] returns: the run
    ends with a run of [ContainerDelete]. *)
Definition deleted_before_return (env : Env) (s : storageLvm) (c : container)
    (w w' : World) (evs : list Event) : Prop :=
  ∃ pre w1 d post,
    evs = pre ++ post ∧ trace w1 = trace w ++ pre
    ∧ runs (ContainerDelete env s c) w1 d w' post.

(** The reading of C5 that the code does not satisfy: in the fallback
    path, a failure of the mount, of the synchronisation or of the unmount
    is returned only after the destination has been deleted. *)
Definition copy_fallback_always_deletes : Prop :=
  ∀ env s c src w r w' evs,
    runs (ContainerCopy env s c src) w r w' evs →
    fs w !! (Path src +:+ ".lv") = None →
    ∀ rf,
      (Exec "mount" ["-o"; "discard";
                     "/dev/" +:+ vgName s +:+ "/" +:+ containerNameToLVName (Name c);
                     Path c], rf) ∈ evs
      ∨ (RsyncCopy (Path src) (Path c), rf) ∈ evs
      ∨ (SysUnmount (Path c), rf) ∈ evs →
      err rf ≠ None →
      r ≠ None ∧ deleted_before_return env s c w w' evs.


(** ** Sample surroundings *)

Module Sample.

Definition ok : Resp := mkResp "" [] None.

Definition failed (msg : string) : Resp := mkResp "" [] (Some (ErrorString msg)).

(** Every call succeeds; [vgs] reports a thin pool, [ioutil.TempDir]
    makes a directory under the one it is given, the database lists one
    container and one image. *)
Definition envOk : Env :=
  λ _ c,
    match c with
    | Exec name _ =>
        if decide (name = "vgs") then mkResp "  twi-a-tz--" [] None else ok
    | IoTempDir dir pre => mkResp (dir +:+ "/" +:+ pre +:+ "012345") [] None
    | DbContainersList => mkResp "" ["c1"] None
    | DbImagesGet => mkResp "" ["abc123"] None
    | _ => ok
    end.

(** As [envOk], but the calls chosen by [bad] fail. *)
Definition envFail (bad : Call → bool) (r : Resp) : Env :=
  λ h c, if bad c then r else envOk h c.

Definition isTemplateApply (c : Call) : bool :=
  match c with CTemplateApply _ _ => true | _ => false end.

Definition isUnmount (c : Call) : bool :=
  match c with SysUnmount _ => true | _ => false end.


Definition isExec (cmd : string) (c : Call) : bool :=
  match c with Exec name _ => bool_decide (name = cmd) | _ => false end.

Definition isRsync (c : Call) : bool :=
  match c with RsyncCopy _ _ => true | _ => false end.

Definition typeName (_ : storageType) : string := "lvm".

Definition driver : storageLvm := mkStorageLvm "vg0" None "" "".

(** The driver object before [Init]. *)
Definition unbound : storageLvm := mkStorageLvm "" None "" "".

Definition c1 : container :=
  Container "c1" "/var/lib/lxd/containers/c1" false false [].

Definition snap0 : container :=
  Container "c1/snap0" "/var/lib/lxd/snapshots/c1/snap0" false true [].

Definition c1snap : container :=
  Container "c1" "/var/lib/lxd/containers/c1" false false [snap0].

Definition c2 : container :=
  Container "c2" "/var/lib/lxd/containers/c2" false false [].

(** A daemon with the volume group configured and nothing created. *)
Definition fresh : World :=
  mkWorld ∅ {["storage.lvm_vg_name" := "vg0"]} [].

(** A daemon with group and pool configured and the image [abc123]
    materialised. *)
Definition withImage : World :=
  mkWorld {["/var/lib/lxd/images/abc123.lv" := FsSymlink "/dev/vg0/abc123"]}
          {["storage.lvm_vg_name" := "vg0"; "storage.lvm_thinpool_name" := "LXDPool"]}
          [].

(** The link of container [c1] exists, but no volume group is
    configured. *)
Definition linkedUnconfigured : World :=
  mkWorld {["/var/lib/lxd/containers/c1.lv" := FsSymlink "/dev/vg0/c1"]} ∅ [].

(** Group and pool configured, container [c1] linked. *)
Definition linkedConfigured : World :=
  mkWorld {["/var/lib/lxd/containers/c1.lv" := FsSymlink "/dev/vg0/c1"]}
          {["storage.lvm_vg_name" := "vg0"; "storage.lvm_thinpool_name" := "LXDPool"]}
          [].

(** Group and pool configured, container [c1] linked, with its snapshot
    [c1/snap0]. *)
Definition withSnapshot : World :=
  mkWorld {["/var/lib/lxd/containers/c1.lv" := FsSymlink "/dev/vg0/c1";
            "/var/lib/lxd/snapshots/c1" := FsDir;
            "/var/lib/lxd/snapshots/c1/snap0" := FsDir;
            "/var/lib/lxd/snapshots/c1/snap0.lv" := FsSymlink "/dev/vg0/c1-snap0"]}
          {["storage.lvm_vg_name" := "vg0"; "storage.lvm_thinpool_name" := "LXDPool"]}
          [].

End Sample.

(** * Properties *)

(** ** The string functions on examples *)

Example containerNameToLVName_plain :
  containerNameToLVName "c1" = "c1".
Proof. reflexivity. Qed.

Example containerNameToLVName_snapshot :
  containerNameToLVName "my-c/snap-0" = "my--c-snap--0".
Proof. reflexivity. Qed.

Example Base_snapshot : filepath.Base "c1/snap0" = "snap0".
Proof. reflexivity. Qed.

Example VarPath_link :
  VarPath ["images"; "abc123" +:+ ".lv"] = "/var/lib/lxd/images/abc123.lv".
Proof. reflexivity. Qed.

Example Join_absolute_element :
  filepath.Join ["/var/lib/lxd"; "images"; "/var/lib/lxd/images/abc.lv.lv"]
  = "/var/lib/lxd/images/var/lib/lxd/images/abc.lv.lv".
Proof. reflexivity. Qed.

Example TrimSpace_attrs : strings.TrimSpace "  twi-a-tz--  " = "twi-a-tz--".
Proof. reflexivity. Qed.

Example lvmVersionFields_sample :
  lvmVersionFields 0
    (strings.Split ("  LVM version:     2.02.98" +:+ nl
                    +:+ "  Library version: 1.02.77" +:+ nl) (ascii_of_nat 10)) ""
  = "2.02.98 / 1.02.77".
Proof. reflexivity. Qed.

(** ** Name mapping *)

Lemma prefix_empty s : String.prefix "" s = true.
Proof. by destruct s. Qed.

Lemma Contains_single_cons (c a : ascii) s :
  strings.Contains (String a s) (String c "")
  = bool_decide (c = a) || strings.Contains s (String c "").
Proof.
  simpl. rewrite prefix_empty.
  by destruct (ascii_dec c a); case_bool_decide.
Qed.

Lemma replace_single_cons (c a : ascii) new s :
  strings.replace_from 0 (String c "") new (String a s)
  = if bool_decide (c = a) then new +:+ strings.replace_from 0 (String c "") new s
    else String a (strings.replace_from 0 (String c "") new s).
Proof.
  simpl. rewrite prefix_empty.
  by destruct (ascii_dec c a); case_bool_decide.
Qed.

(** Replacing a byte that does not occur changes nothing. *)
Lemma replace_single_absent (c : ascii) new s :
  strings.Contains s (String c "") = false →
  strings.replace_from 0 (String c "") new s = s.
Proof.
  induction s as [|a s IH]; [done|].
  rewrite Contains_single_cons, replace_single_cons.
  case_bool_decide as Hc; simpl; [discriminate|].
  intros Hs. by rewrite IH.
Qed.

(** Doubling the hyphens introduces no delimiter. *)
Lemma escape_hyphens_no_delim s :
  strings.Contains s "/" = false →
  strings.Contains (strings.replace_from 0 "-" "--" s) "/" = false.
Proof.
  induction s as [|a s IH]; [done|].
  rewrite Contains_single_cons, replace_single_cons.
  case_bool_decide as Hs; [discriminate|]. intros H. specialize (IH H).
  case_bool_decide as Hd.
  - subst a. change ("--" +:+ ?x) with (String "-" (String "-" x)).
    rewrite !Contains_single_cons. by rewrite IH.
  - rewrite Contains_single_cons. rewrite IH. by case_bool_decide.
Qed.

(** Doubling the hyphens loses nothing. *)
Lemma escape_hyphens_inj a b :
  strings.replace_from 0 "-" "--" a = strings.replace_from 0 "-" "--" b → a = b.
Proof.
  revert b. induction a as [|x a IH]; intros [|y b];
    rewrite ?replace_single_cons; repeat case_bool_decide; subst;
    change ("--" +:+ ?x) with (String "-" (String "-" x));
    intros Heq; try done; simplify_eq; try done.
  - f_equal. by apply IH.
  - f_equal. by apply IH.
Qed.

(** C9: two distinct logical names without the snapshot delimiter are
    mapped to distinct volume names: on such names [containerNameToLVName]
    is injective. *)
Theorem containerNameToLVName_injective (a b : string) :
  strings.Contains a SnapshotDelimiter = false →
  strings.Contains b SnapshotDelimiter = false →
  a ≠ b →
  containerNameToLVName a ≠ containerNameToLVName b.
Proof.
  intros Ha Hb Hne Heq. apply Hne.
  cbv [containerNameToLVName strings.Replace SnapshotDelimiter] in *.
  rewrite (replace_single_absent "/" "-" (strings.replace_from 0 "-" "--" a)),
    (replace_single_absent "/" "-" (strings.replace_from 0 "-" "--" b)) in Heq
    by (by apply escape_hyphens_no_delim).
  by apply escape_hyphens_inj.
Qed.

Lemma containerNameToLVName_injective_witness :
  containerNameToLVName "a-b" ≠ containerNameToLVName "a--b".
Proof.
  apply (containerNameToLVName_injective "a-b" "a--b");
    [reflexivity | reflexivity | discriminate].
Defined.

(** With the delimiter the mapping does identify names: a snapshot and a
    container whose name has a hyphen in the same place. *)
Example containerNameToLVName_delimiter_clash :
  containerNameToLVName "a/b-c" = "a-b--c" ∧ containerNameToLVName "a/b" = "a-b"
  ∧ containerNameToLVName "a/-" = containerNameToLVName "a-/".
Proof. by vm_compute. Qed.

(** ** Running the driver symbolically *)

Lemma call_inv env c w r w' :
  call env c w = (r, w') →
  w' = mkWorld (fs w) (dconfig w) (trace w ++ [(c, r)]) ∧ r = env (trace w) c.
Proof. cbv [call]. by intros [= <- <-]. Qed.

Lemma events_app {A} (m : M A) w evs :
  trace (m w).2 = trace w ++ evs → events m w = evs.
Proof. unfold events. intros ->. by rewrite drop_app_length. Qed.

Lemma runs_events {A} (m : M A) w a w' evs :
  runs m w a w' evs → events m w = evs.
Proof. intros [Hm Htr]. apply events_app. by rewrite Hm. Qed.

(** The two loops of [storageLVMGetThinPoolUsers] read the filesystem and
    nothing else: they append the names whose link exists. *)
Lemma containerLinkUsers_run l results w :
  containerLinkUsers l results w = (results ++ linked containerLink w l, w).
Proof.
  revert results. induction l as [|n l IH]; intros results.
  - cbn. by rewrite app_nil_r.
  - cbn [containerLinkUsers]. cbv [bind PathExists]. rewrite IH.
    unfold linked. rewrite filter_cons. fold (containerLink n).
    case_bool_decide as Hn; destruct (decide _) as [Hd|Hd]; try done.
    by rewrite <- app_assoc.
Qed.

Lemma imageLinkUsers_run l results w :
  imageLinkUsers l results w = (results ++ linked imageLink w l, w).
Proof.
  revert results. induction l as [|n l IH]; intros results.
  - cbn. by rewrite app_nil_r.
  - cbn [imageLinkUsers]. cbv [bind PathExists]. rewrite IH.
    unfold linked. rewrite filter_cons. fold (imageLink n).
    case_bool_decide as Hn; destruct (decide _) as [Hd|Hd]; try done.
    by rewrite <- app_assoc.
Qed.

Lemma events_in_weaken (cls1 cls2 : Call → bool) evs :
  (∀ c, cls1 c = true → cls2 c = true) → events_in cls1 evs → events_in cls2 evs.
Proof.
  intros Hc Hev. eapply Forall_impl; [exact Hev|]. intros [c r]. apply Hc.
Qed.

Lemma pool_create_events evs : events_in pool_call evs → events_in create_call evs.
Proof.
  apply events_in_weaken. intros c Hc. unfold create_call. by rewrite Hc.
Qed.

Lemma pool_image_events evs : events_in pool_call evs → events_in image_call evs.
Proof.
  apply events_in_weaken. intros c Hc. unfold image_call. by rewrite Hc.
Qed.

Lemma under_refl p : under p p = true.
Proof. unfold under. by rewrite bool_decide_eq_true_2. Qed.

(** Unfolds the primitives down to [call]. *)
Ltac unfold_prims H :=
  cbv beta iota zeta delta
    [bind ret log exec_Command syscall_Unmount os_MkdirAll os_Symlink os_Remove
     os_RemoveAll os_Rename ioutil_TempDir modify_fs PathExists ConfigValueGet
     ConfigValueSet dbContainersList dbImagesGet container_Snapshots
     container_TemplateApply shiftRootfs untarImage storageRsyncCopy initShared
     isLVMContainer renameLV Errorf] in H.

Ltac norm H :=
  cbn [fst snd fs dconfig trace err output names with_fs with_dconfig negb
       vgName sType sTypeName sTypeVersion] in H.

(** The next call: its answer becomes a variable, split on its error where
    the run looks at it. *)
Ltac step_call H :=
  lazymatch type of H with
  | context [call ?env ?c ?w] =>
      let r := fresh "r" in let w1 := fresh "w" in let E := fresh "E" in
      destruct (call env c w) as [r w1] eqn:E;
      apply call_inv in E as [-> _];
      lazymatch type of H with
      | context [err r] =>
          let o := fresh "out" in let ns := fresh "ns" in let e := fresh "e" in
          destruct r as [o ns [e|]]
      | _ => idtac
      end
  | context [containerLinkUsers ?l ?r ?w] => rewrite (containerLinkUsers_run l r w) in H
  | context [imageLinkUsers ?l ?r ?w] => rewrite (imageLinkUsers_run l r w) in H
  end.

Ltac step_match H :=
  match type of H with
  | context [match ?p with (_, _) => _ end] => is_var p; destruct p
  | context [match ?e with Some _ => _ | None => _ end] => is_var e; destruct e
  | context [match ?e with ExitError _ _ => _ | ErrorString _ => _ end] =>
      is_var e; destruct e
  | context [if decide ?P then _ else _] => destruct (decide P)
  | context [if bool_decide ?P then _ else _] => destruct (bool_decide P) eqn:?
  | context [if ?b then _ else _] => destruct b eqn:?
  end.

(** What a specification says of the world a finished part leaves is put
    in place of that world. *)
Ltac absorb E w1 :=
  let Hfs := fresh "Hfs" in let Hcfg := fresh "Hcfg" in
  let evs := fresh "evs" in let Htr := fresh "Htr" in let Hev := fresh "Hev" in
  let f := fresh "f" in let cfg := fresh "cfg" in let tr := fresh "tr" in
  lazymatch type of E with
  | _ ∧ _ ∧ ∃ _, _ =>
      destruct E as (Hfs & Hcfg & evs & Htr & Hev);
      destruct w1 as [f cfg tr]; cbn [fs dconfig trace] in Hfs, Hcfg, Htr; subst
  | _ ∧ ∃ _, _ =>
      destruct E as (Hfs & evs & Htr & Hev);
      destruct w1 as [f cfg tr]; cbn [fs dconfig trace] in Hfs, Htr; subst
  | ∃ _, _ =>
      destruct E as (evs & Htr & Hev);
      destruct w1 as [f cfg tr]; cbn [fs dconfig trace] in Htr; subst
  end.

Ltac sub_with t lem :=
  let r := fresh "r" in let w1 := fresh "w" in let E := fresh "E" in
  destruct t as [r w1] eqn:E; apply lem in E; absorb E w1.

Ltac close_events :=
  eexists; split;
  [ rewrite <- ?app_assoc; reflexivity
  | unfold events_in in *;
    repeat first [ assumption
                 | by apply pool_create_events | by apply pool_image_events
                 | apply Forall_app; split | apply Forall_cons; split
                 | apply Forall_nil ];
    try (vm_compute; reflexivity) ].

Ltac close_spec H :=
  injection H as <- <-; cbn [fs dconfig trace]; split_and?; try done; close_events.

(** Membership in a list of events whose tail is known. *)
Ltac elim_in H :=
  repeat first
    [ apply elem_of_app in H as [H|H]
    | apply elem_of_cons in H as [H|H]
    | apply elem_of_nil in H; destruct H ].

(** An event outside the class of the part it is said to come from. *)
Ltac class_contra H :=
  match goal with
  | Hev : events_in _ ?evs |- _ =>
      match type of H with _ ∈ evs => idtac end;
      exfalso; eapply Forall_forall in Hev; [|exact H];
      vm_compute in Hev; discriminate Hev
  end.

(** Membership in a list that is written out. *)
Ltac in_list :=
  repeat first [ apply list_elem_of_here | apply list_elem_of_further ].

Ltac known_events H Htr :=
  injection H as <- <-; cbn [fs dconfig trace] in Htr |- *;
  rewrite <- ?app_assoc in Htr; apply app_inv_head in Htr; subst.

(** ** Specifications of the parts *)

Section Parts.

Variable env : Env.

Ltac exec0 H := repeat (norm H; first [step_call H | step_match H]).

Lemma storageLVMCheckVolumeGroup_spec vg w r w' :
  storageLVMCheckVolumeGroup env vg w = (r, w') →
  fs w' = fs w ∧ dconfig w' = dconfig w
  ∧ ∃ evs, trace w' = trace w ++ evs ∧ events_in pool_call evs.
Proof.
  intros H. unfold storageLVMCheckVolumeGroup in H. unfold_prims H.
  exec0 H; close_spec H.
Qed.

Lemma storageLVMThinpoolExists_spec vg pool w r w' :
  storageLVMThinpoolExists env vg pool w = (r, w') →
  fs w' = fs w ∧ dconfig w' = dconfig w
  ∧ ∃ evs, trace w' = trace w ++ evs ∧ events_in pool_call evs.
Proof.
  intros H. unfold storageLVMThinpoolExists in H. unfold_prims H.
  exec0 H; close_spec H.
Qed.

Lemma storageLVMGetThinPoolUsers_spec w r w' :
  storageLVMGetThinPoolUsers env w = (r, w') →
  fs w' = fs w ∧ dconfig w' = dconfig w
  ∧ ∃ evs, trace w' = trace w ++ evs ∧ events_in pool_call evs.
Proof.
  intros H. unfold storageLVMGetThinPoolUsers in H. unfold_prims H.
  exec0 H; close_spec H.
Qed.

Lemma createDefaultThinPool_spec s w r w' :
  createDefaultThinPool env s w = (r, w') →
  fs w' = fs w ∧ dconfig w' = dconfig w
  ∧ ∃ evs, trace w' = trace w ++ evs ∧ events_in pool_call evs.
Proof.
  intros H. unfold createDefaultThinPool in H. unfold_prims H.
  exec0 H; close_spec H.
Qed.

Lemma removeLV_spec s lvname w r w' :
  removeLV env s lvname w = (r, w') →
  fs w' = fs w ∧ dconfig w' = dconfig w
  ∧ ∃ evs, trace w' = trace w ++ evs ∧ events_in delete_call evs.
Proof.
  intros H. unfold removeLV in H. unfold_prims H. exec0 H; close_spec H.
Qed.

Lemma createSnapshotLV_spec s lvname orig ro w r w' :
  createSnapshotLV env s lvname orig ro w = (r, w') →
  fs w' = fs w ∧ dconfig w' = dconfig w
  ∧ ∃ evs, trace w' = trace w ++ evs ∧ events_in pool_call evs.
Proof.
  intros H. unfold createSnapshotLV in H. unfold_prims H. exec0 H; close_spec H.
Qed.

Ltac step_sub1 H :=
  lazymatch type of H with
  | context [storageLVMThinpoolExists env ?vg ?pool ?w] =>
      sub_with (storageLVMThinpoolExists env vg pool w) storageLVMThinpoolExists_spec
  | context [storageLVMGetThinPoolUsers env ?w] =>
      sub_with (storageLVMGetThinPoolUsers env w) storageLVMGetThinPoolUsers_spec
  | context [removeLV env ?s ?n ?w] =>
      sub_with (removeLV env s n w) removeLV_spec
  end.

Ltac exec1 H := repeat (norm H; first [step_sub1 H | step_call H | step_match H]).

Lemma storageLVMSetThinPoolNameConfig_spec pool w r w' :
  storageLVMSetThinPoolNameConfig env pool w = (r, w') →
  fs w' = fs w ∧ ∃ evs, trace w' = trace w ++ evs ∧ events_in pool_call evs.
Proof.
  intros H. unfold storageLVMSetThinPoolNameConfig in H. unfold_prims H.
  exec1 H; close_spec H.
Qed.

Lemma ContainerDelete_spec s c w r w' :
  ContainerDelete env s c w = (r, w') →
  dconfig w' = dconfig w
  ∧ ∃ evs, trace w' = trace w ++ evs ∧ events_in delete_call evs.
Proof.
  intros H. unfold ContainerDelete in H. unfold_prims H.
  exec1 H; close_spec H.
Qed.

Ltac step_sub2 H :=
  lazymatch type of H with
  | context [storageLVMSetThinPoolNameConfig env ?p ?w] =>
      sub_with (storageLVMSetThinPoolNameConfig env p w)
               storageLVMSetThinPoolNameConfig_spec
  | context [createDefaultThinPool env ?s ?w] =>
      sub_with (createDefaultThinPool env s w) createDefaultThinPool_spec
  end.

Ltac exec2 H := repeat (norm H; first [step_sub2 H | step_call H | step_match H]).

Lemma createThinLV_spec s lvname w r w' :
  createThinLV env s lvname w = (r, w') →
  fs w' = fs w ∧ ∃ evs, trace w' = trace w ++ evs ∧ events_in pool_call evs.
Proof.
  intros H. unfold createThinLV in H. unfold_prims H.
  exec2 H; close_spec H.
Qed.

End Parts.

(** ** The trace only grows *)

Lemma extends_ret {A} (a : A) : extends (ret a).
Proof. intros w. exists []. by rewrite app_nil_r. Qed.

Lemma extends_bind {A B} (m : M A) (k : A → M B) :
  extends m → (∀ a, extends (k a)) → extends (bind m k).
Proof.
  intros Hm Hk w. unfold bind. destruct (Hm w) as [evs1 H1].
  destruct (m w) as [a w1]. destruct (Hk a w1) as [evs2 H2].
  exists (evs1 ++ evs2). cbn [snd] in *. by rewrite H2, H1, app_assoc.
Qed.

Lemma extends_call env c : extends (call env c).
Proof. intros w. by eexists. Qed.

Lemma extends_state {A} (f : World → A * World) :
  (∀ w, trace (f w).2 = trace w) → extends f.
Proof. intros Hf w. exists []. by rewrite Hf, app_nil_r. Qed.

Create HintDb extends discriminated.
#[local] Hint Resolve extends_ret extends_call : extends.

Ltac extends_step :=
  first
    [ apply extends_ret
    | apply extends_call
    | apply extends_bind; [|intros ?]
    | apply extends_state; intros ?; reflexivity
    | match goal with
      | |- extends (match ?x with _ => _ end) => destruct x
      | |- extends (if ?b then _ else _) => destruct b
      end
    | progress cbv beta zeta
    | solve [eauto with extends] ].

Ltac extends_all := repeat extends_step.

Lemma containerLinkUsers_extends l r : extends (containerLinkUsers l r).
Proof.
  apply extends_state. intros w. by rewrite containerLinkUsers_run.
Qed.

Lemma imageLinkUsers_extends l r : extends (imageLinkUsers l r).
Proof.
  apply extends_state. intros w. by rewrite imageLinkUsers_run.
Qed.

#[local] Hint Resolve containerLinkUsers_extends imageLinkUsers_extends : extends.

Ltac unfold_calls :=
  unfold log, exec_Command, syscall_Unmount, os_MkdirAll, os_Symlink, os_Remove,
    os_RemoveAll, os_Rename, ioutil_TempDir, modify_fs, PathExists, ConfigValueGet,
    ConfigValueSet, dbContainersList, dbImagesGet, container_Snapshots,
    container_TemplateApply, shiftRootfs, untarImage, storageRsyncCopy, initShared,
    isLVMContainer, renameLV.

Lemma storageLVMCheckVolumeGroup_extends env vg : extends (storageLVMCheckVolumeGroup env vg).
Proof. unfold storageLVMCheckVolumeGroup. unfold_calls. extends_all. Qed.

Lemma storageLVMThinpoolExists_extends env vg p : extends (storageLVMThinpoolExists env vg p).
Proof. unfold storageLVMThinpoolExists. unfold_calls. extends_all. Qed.

Lemma storageLVMGetThinPoolUsers_extends env : extends (storageLVMGetThinPoolUsers env).
Proof. unfold storageLVMGetThinPoolUsers. unfold_calls. extends_all. Qed.

#[local] Hint Resolve storageLVMCheckVolumeGroup_extends storageLVMThinpoolExists_extends
  storageLVMGetThinPoolUsers_extends : extends.

Lemma storageLVMSetThinPoolNameConfig_extends env p :
  extends (storageLVMSetThinPoolNameConfig env p).
Proof. unfold storageLVMSetThinPoolNameConfig. unfold_calls. extends_all. Qed.

Lemma storageLVMSetVolumeGroupNameConfig_extends env vg :
  extends (storageLVMSetVolumeGroupNameConfig env vg).
Proof. unfold storageLVMSetVolumeGroupNameConfig. unfold_calls. extends_all. Qed.

#[local] Hint Resolve storageLVMSetThinPoolNameConfig_extends : extends.

Lemma createThinLV_extends env s n : extends (createThinLV env s n).
Proof. unfold createThinLV, createDefaultThinPool. unfold_calls. extends_all. Qed.

Lemma createSnapshotLV_extends env s n o ro : extends (createSnapshotLV env s n o ro).
Proof. unfold createSnapshotLV. unfold_calls. extends_all. Qed.

Lemma ContainerDelete_extends env s c : extends (ContainerDelete env s c).
Proof. unfold ContainerDelete, removeLV. unfold_calls. extends_all. Qed.

#[local] Hint Resolve createThinLV_extends createSnapshotLV_extends
  ContainerDelete_extends : extends.

Lemma ImageCreate_extends env s fp : extends (ImageCreate env s fp).
Proof. unfold ImageCreate. unfold_calls. extends_all. Qed.

#[local] Hint Resolve ImageCreate_extends : extends.

Lemma ContainerCreateFromImage_extends env s c fp :
  extends (ContainerCreateFromImage env s c fp).
Proof. unfold ContainerCreateFromImage. unfold_calls. extends_all. Qed.

Lemma ContainerCopy_extends env s c src : extends (ContainerCopy env s c src).
Proof.
  unfold ContainerCopy, createSnapshotContainer, ContainerCreate, ContainerStart,
    ContainerStop.
  unfold_calls. extends_all.
Qed.

Lemma Init_extends env tn s config : extends (Init env tn s config).
Proof. unfold Init. unfold_calls. extends_all. Qed.

Lemma renameSnapshots_extends rename newName l :
  (∀ snap n, extends (rename snap n)) → extends (renameSnapshots rename newName l).
Proof.
  intros Hr. induction l as [|snap l IH]; cbn [renameSnapshots]; extends_all; auto.
Qed.

(** Whatever the surroundings answer, a driver operation returns, and what
    it did is the events it added. *)
Lemma runs_total {A} (m : M A) w :
  extends m → runs m w (m w).1 (m w).2 (events m w).
Proof.
  intros Hm. destruct (Hm w) as [evs Hevs]. split; [by destruct (m w)|].
  by rewrite (events_app m w evs Hevs).
Qed.

(** The operations the statements below are about always return. *)
Lemma operations_run env typeName s c src fingerprint config name w :
  (∃ r w' evs, runs (ImageCreate env s fingerprint) w r w' evs)
  ∧ (∃ r w' evs, runs (ContainerCreateFromImage env s c fingerprint) w r w' evs)
  ∧ (∃ r w' evs, runs (ContainerCopy env s c src) w r w' evs)
  ∧ (∃ r w' evs, runs (Init env typeName s config) w r w' evs)
  ∧ (∃ r w' evs, runs (storageLVMSetVolumeGroupNameConfig env name) w r w' evs)
  ∧ (∃ r w' evs, runs (storageLVMSetThinPoolNameConfig env name) w r w' evs).
Proof.
  split_and!; do 3 eexists; apply runs_total;
    auto using ImageCreate_extends, ContainerCreateFromImage_extends,
      ContainerCopy_extends, Init_extends, storageLVMSetVolumeGroupNameConfig_extends,
      storageLVMSetThinPoolNameConfig_extends.
Qed.

Ltac step_part H :=
  lazymatch type of H with
  | context [createThinLV ?env ?s ?n ?w] =>
      sub_with (createThinLV env s n w) (createThinLV_spec env)
  | context [createSnapshotLV ?env ?s ?n ?o ?ro ?w] =>
      sub_with (createSnapshotLV env s n o ro w) (createSnapshotLV_spec env)
  | context [storageLVMCheckVolumeGroup ?env ?vg ?w] =>
      sub_with (storageLVMCheckVolumeGroup env vg w) (storageLVMCheckVolumeGroup_spec env)
  | context [storageLVMThinpoolExists ?env ?vg ?pool ?w] =>
      sub_with (storageLVMThinpoolExists env vg pool w)
               (storageLVMThinpoolExists_spec env)
  | context [ContainerDelete ?env ?s ?c ?w] =>
      sub_with (ContainerDelete env s c w) (ContainerDelete_spec env)
  end.

Ltac exec H :=
  repeat (norm H; first [step_part H | step_call H | step_match H]); norm H.

Lemma ContainerCreate_spec env s c w r w' :
  ContainerCreate env s c w = (r, w') →
  ∃ evs, trace w' = trace w ++ evs ∧ events_in create_call evs.
Proof.
  intros H. unfold ContainerCreate in H. unfold_prims H. exec H; close_spec H.
Qed.

Lemma ImageCreate_spec env s fingerprint w r w' :
  ImageCreate env s fingerprint w = (r, w') →
  ∃ evs, trace w' = trace w ++ evs ∧ events_in image_call evs.
Proof.
  intros H. unfold ImageCreate in H. unfold_prims H. exec H; close_spec H.
Qed.

(** ** Pool guard *)

(** C7: [storageLVMThinpoolExists] returns [(false, nil)] exactly when the
    [vgs] query ends with exit status 5; every other failure of the query
    gives the generic error; a query that succeeds with attributes that do
    not start with [t] gives an error, not [false] alone; attributes that
    start with [t] give [(true, nil)]. *)
Theorem storageLVMThinpoolExists_cases env vg pool w :
  let r := env (trace w)
             (Exec "vgs" ["--noheadings"; "-o"; "lv_attr"; vg +:+ "/" +:+ pool]) in
  let res := (storageLVMThinpoolExists env vg pool w).1 in
  (res = (false, None) ↔ ∃ msg, err r = Some (ExitError 5 msg))
  ∧ (∀ e, err r = Some e → (∀ msg, e ≠ ExitError 5 msg) →
       res = (false, Errorf ("Error checking for pool '" +:+ pool +:+ "'")))
  ∧ (err r = None → strings.HasPrefix (strings.TrimSpace (output r)) "t" = false →
       res = (false, Errorf ("Pool named '" +:+ pool
                             +:+ "' exists but is not a thin pool.")))
  ∧ (err r = None → strings.HasPrefix (strings.TrimSpace (output r)) "t" = true →
       res = (true, None)).
Proof.
  intros r res. subst res.
  cbv [storageLVMThinpoolExists exec_Command call bind ret]. fold r.
  destruct (err r) as [[st msg|msg]|] eqn:Er; cbn [fst].
  - destruct (decide (st = 5%Z)) as [->|Hst].
    + split_and!; try done. split; [eauto|done]. intros e [= <-] H. by destruct (H msg).
    + split_and!; try done. split; [done|]. intros [m [= ? ?]]. done.
  - split_and!; try done. split; [done|]. by intros [m ?].
  - destruct (strings.HasPrefix _ _) eqn:Hp; cbn [fst].
    + split_and!; try done. split; [done|]. by intros [m ?].
    + split_and!; try done. split; [done|]. by intros [m ?].
Qed.

Example storageLVMThinpoolExists_never_created :
  (storageLVMThinpoolExists
     (Sample.envFail (Sample.isExec "vgs")
        (mkResp "" [] (Some (ExitError 5 "exit status 5"))))
     "vg0" "nopool" Sample.fresh).1
  = (false, None).
Proof. reflexivity. Qed.

Example storageLVMThinpoolExists_not_thin :
  (storageLVMThinpoolExists
     (Sample.envFail (Sample.isExec "vgs") (mkResp "  -wi-a-----" [] None))
     "vg0" "plain" Sample.fresh).1
  = (false, Errorf "Pool named 'plain' exists but is not a thin pool.").
Proof. reflexivity. Qed.

(** ** Deleting a container *)

(** C10: when the removal of the backend volume fails, [ContainerDelete]
    returns the error of [removeLV] and has done nothing but the [lvremove]
    call and its log line: the links and directories, and the
    configuration, are as before. *)
Theorem ContainerDelete_removeLV_failure env s c w e :
  err (env (trace w)
         (Exec "lvremove" ["-f"; vgName s +:+ "/" +:+ containerNameToLVName (Name c)]))
  = Some e →
  (ContainerDelete env s c w).1
    = Errorf ("Could not remove LV named " +:+ containerNameToLVName (Name c))
  ∧ (ContainerDelete env s c w).1 = (removeLV env s (containerNameToLVName (Name c)) w).1
  ∧ fs (ContainerDelete env s c w).2 = fs w
  ∧ dconfig (ContainerDelete env s c w).2 = dconfig w
  ∧ map fst (events (ContainerDelete env s c) w)
    = [Exec "lvremove" ["-f"; vgName s +:+ "/" +:+ containerNameToLVName (Name c)];
       Log LvlDebug "Could not remove LV"].
Proof.
  intros He.
  erewrite (events_app (ContainerDelete env s c)).
  2:{ cbv [ContainerDelete removeLV exec_Command log call bind ret]. rewrite He.
      cbn [fst snd trace]. rewrite <- app_assoc. reflexivity. }
  cbv [ContainerDelete removeLV exec_Command log call bind ret]. rewrite He.
  cbn. done.
Qed.

Lemma ContainerDelete_removeLV_failure_witness :
  (ContainerDelete (Sample.envFail (Sample.isExec "lvremove") (Sample.failed "exit status 5"))
     Sample.driver Sample.c1 Sample.linkedConfigured).1
  = Errorf "Could not remove LV named c1"
  ∧ fs (ContainerDelete
          (Sample.envFail (Sample.isExec "lvremove") (Sample.failed "exit status 5"))
          Sample.driver Sample.c1 Sample.linkedConfigured).2
    = fs Sample.linkedConfigured.
Proof.
  pose proof (ContainerDelete_removeLV_failure
                (Sample.envFail (Sample.isExec "lvremove") (Sample.failed "exit status 5"))
                Sample.driver Sample.c1 Sample.linkedConfigured
                (ErrorString "exit status 5") eq_refl) as (H1 & _ & H2 & _).
  exact (conj H1 H2).
Defined.

(** ** Image materialisation *)



(** ** Creating a container from an image *)

(** C1, counterexample: with the image linked and every call succeeding
    but the "create" hook, the error of the hook is what is returned. *)
Lemma ContainerCreateFromImage_returns_template_error :
  ¬ template_error_swallowed.
Proof.
  intros Hclaim.
  pose (env := Sample.envFail Sample.isTemplateApply (Sample.failed "template failed")).
  pose (m := ContainerCreateFromImage env Sample.driver Sample.c1 "abc123").
  assert (Hruns : runs m Sample.withImage (m Sample.withImage).1 (m Sample.withImage).2
                    (events m Sample.withImage)).
  { split; [by destruct (m Sample.withImage)|]. by vm_compute. }
  assert (Hr : (m Sample.withImage).1 = None).
  { apply (Hclaim _ _ _ _ _ _ _ _ Hruns).
    - exists (Sample.failed "template failed"). split; [|discriminate].
      vm_compute. in_list.
    - intros c' r' Hin Hne. vm_compute in Hin.
      elim_in Hin; simplify_eq; try reflexivity; by destruct Hne. }
  vm_compute in Hr. discriminate Hr.
Qed.

(** C1 (amended): when the "create" template hook fails,
    [ContainerCreateFromImage] logs the failure and goes on to unmount,
    these being its last three calls; if the unmount succeeds it returns the
    error of the hook, if not the error about the unmount. *)
Theorem ContainerCreateFromImage_template_error env s c fingerprint w r w' evs :
  runs (ContainerCreateFromImage env s c fingerprint) w r w' evs →
  ∀ rt e, (CTemplateApply (Name c) "create", rt) ∈ evs → err rt = Some e →
  ∃ pre rl ru,
    evs = pre ++ [(CTemplateApply (Name c) "create", rt);
                  (Log LvlError
                     "Error in create template during ContainerCreateFromImage, continuing to unmount",
                   rl);
                  (SysUnmount (Path c), ru)]
    ∧ r = match err ru with
          | Some ue =>
              Errorf ("Error unmounting '" +:+ Path c +:+ "' after shiftRootfs: "
                      +:+ Error ue)
          | None => Some e
          end.
Proof.
  intros [H Htr]. unfold ContainerCreateFromImage in H. unfold_prims H.
  norm H. destruct (bool_decide _) eqn:Hex in H; norm H.
  2: destruct (ImageCreate env s _ w) as [ri wi] eqn:Ei;
     apply ImageCreate_spec in Ei; absorb Ei wi.
  all: exec H.
  all: known_events H Htr.
  all: intros rt e' Hin Hrt.
  all: elim_in Hin; try class_contra Hin; try discriminate Hin.
  all: injection Hin as ->; cbn [err] in Hrt; try discriminate Hrt.
  all: injection Hrt as ->.
  all: do 3 eexists; split;
    [ rewrite ?app_assoc; rewrite <- app_assoc; rewrite <- app_assoc; reflexivity
    | reflexivity ].
Qed.

Lemma ContainerCreateFromImage_template_error_witness :
  (ContainerCreateFromImage
     (Sample.envFail Sample.isTemplateApply (Sample.failed "template failed"))
     Sample.driver Sample.c1 "abc123" Sample.withImage).1
  = Errorf "template failed".
Proof.
  pose (env := Sample.envFail Sample.isTemplateApply (Sample.failed "template failed")).
  pose (m := ContainerCreateFromImage env Sample.driver Sample.c1 "abc123").
  assert (Hruns : runs m Sample.withImage (m Sample.withImage).1 (m Sample.withImage).2
                    (events m Sample.withImage)).
  { split; [by destruct (m Sample.withImage)|]. by vm_compute. }
  destruct (ContainerCreateFromImage_template_error _ _ _ _ _ _ _ _ Hruns
              (Sample.failed "template failed") (ErrorString "template failed"))
    as (pre & rl & ru & Hevs & Hr).
  { vm_compute. in_list. }
  { reflexivity. }
  assert (Hru : ru = Sample.ok).
  { vm_compute in Hevs.
    apply (f_equal (@rev Event)) in Hevs.
    rewrite rev_app_distr in Hevs. cbn in Hevs. by injection Hevs as <- _. }
  subst ru. exact Hr.
Defined.

(** C2 (the code departs from it): [ContainerCreateFromImage] looks for
    the link [images/<fingerprint>.lv] and, when it is absent, hands
    [ImageCreate] that link path where [ImageCreate] takes a fingerprint.
    The volume is then named after the path and the link is made at
    [images/<path>.lv]: the link looked for never appears, and a second call
    for the same fingerprint allocates an image volume again. *)
Theorem ContainerCreateFromImage_materializes_again :
  let m := ContainerCreateFromImage Sample.envOk Sample.driver Sample.c1 "abc123" in
  let w1 := (m Sample.fresh).2 in
  let alloc := Exec "lvcreate" ["--thin"; "-n"; "/var/lib/lxd/images/abc123.lv";
                                "--virtualsize"; "10GiB"; "vg0/LXDPool"] in
  (m Sample.fresh).1 = None
  ∧ (m w1).1 = None
  ∧ fs w1 !! VarPath ["images"; "abc123" +:+ ".lv"] = None
  ∧ fs w1 !! "/var/lib/lxd/images/var/lib/lxd/images/abc123.lv.lv"
    = Some (FsSymlink "/dev/vg0//var/lib/lxd/images/abc123.lv")
  ∧ (alloc, Sample.ok) ∈ events m Sample.fresh
  ∧ (alloc, Sample.ok) ∈ events m w1.
Proof.
  vm_compute. split_and!; try reflexivity; in_list.
Qed.

(** Had the image been linked where it is looked for, nothing would be
    allocated for it. *)
Example ContainerCreateFromImage_linked_image :
  map fst (events (ContainerCreateFromImage Sample.envOk Sample.driver Sample.c1 "abc123")
             Sample.withImage)
  = [Exec "lvcreate" ["-kn"; "-n"; "c1"; "-s"; "/dev/vg0/abc123"];
     Exec "lvchange" ["-ay"; "/dev/vg0/c1"];
     OsMkdirAll "/var/lib/lxd/containers/c1";
     OsSymlink "/dev/vg0/c1" "/var/lib/lxd/containers/c1.lv";
     Exec "mount" ["-o"; "discard"; "/dev/vg0/c1"; "/var/lib/lxd/containers/c1"];
     ShiftRootfs "c1";
     CTemplateApply "c1" "create";
     SysUnmount "/var/lib/lxd/containers/c1"].
Proof. by vm_compute. Qed.

(** ** Renaming a container *)

Lemma ContainerRename_unfold env s c newContainerName :
  ContainerRename env s c newContainerName
  = ContainerRename_body env (ContainerRename env s) s c newContainerName.
Proof. by destruct c. Qed.

Lemma recordRename_run env snap n w :
  recordRename env snap n w
  = (None, mkWorld (fs w) (dconfig w)
             (trace w ++ [(Log LvlDebug (Name snap +:+ " => " +:+ n),
                           env (trace w) (Log LvlDebug (Name snap +:+ " => " +:+ n)))])).
Proof. reflexivity. Qed.

Lemma renameSnapshots_records env newName l w :
  (renameSnapshots (recordRename env) newName l w).1 = None
  ∧ ∃ evs, trace (renameSnapshots (recordRename env) newName l w).2 = trace w ++ evs
      ∧ map fst evs
        = map (λ snap, Log LvlDebug (Name snap +:+ " => " +:+ newName +:+ SnapshotDelimiter
                                     +:+ filepath.Base (Name snap))) l.
Proof.
  revert w. induction l as [|snap l IH]; intros w.
  - split; [done|]. exists []. by rewrite app_nil_r.
  - cbn [renameSnapshots]. unfold bind. rewrite !recordRename_run.
    match goal with |- context [renameSnapshots _ _ l ?w1] =>
      destruct (IH w1) as (Hr & evs & Htr & Hev) end.
    split; [exact Hr|]. eexists. split.
    + rewrite Htr. cbn [trace]. rewrite <- app_assoc. reflexivity.
    + cbn [map fst app]. by rewrite Hev.
Qed.

(** When every call succeeds, renaming a container that is not a snapshot
    calls the rename once for each of its snapshots, in their order, with
    the volume name of the new name, the delimiter and the last element of
    the name of the snapshot. *)
Lemma ContainerRename_nested_calls env s c newContainerName w :
  IsSnapshot c = false →
  (∀ h call, err (env h call) = None) →
  let newName := containerNameToLVName newContainerName in
  let m := ContainerRename_body env (recordRename env) s c newContainerName in
  (m w).1 = None
  ∧ map fst (events m w)
    = [Exec "lvrename" [vgName s; containerNameToLVName (Name c); newName];
       OsRename (Path c +:+ ".lv") (containerPath newName false +:+ ".lv");
       CSnapshots (Name c)]
      ++ map (λ snap, Log LvlDebug (Name snap +:+ " => " +:+ newName +:+ SnapshotDelimiter
                                    +:+ filepath.Base (Name snap))) (snaps c).
Proof.
  intros Hc Hok newName m. subst m newName.
  assert (Hrun : ∃ w1 evs1,
    ContainerRename_body env (recordRename env) s c newContainerName w
    = renameSnapshots (recordRename env) (containerNameToLVName newContainerName)
        (snaps c) w1
    ∧ trace w1 = trace w ++ evs1
    ∧ map fst evs1
      = [Exec "lvrename" [vgName s; containerNameToLVName (Name c);
                          containerNameToLVName newContainerName];
         OsRename (Path c +:+ ".lv")
           (containerPath (containerNameToLVName newContainerName) false +:+ ".lv");
         CSnapshots (Name c)]).
  { cbv [ContainerRename_body renameLV exec_Command os_Rename container_Snapshots
         modify_fs bind ret call].
    rewrite !Hok, Hc. cbn [fst snd negb err]. rewrite !Hok. cbn [fst snd].
    do 2 eexists. split; [reflexivity|]. cbn [trace with_fs].
    split; [rewrite <- !app_assoc; reflexivity | reflexivity]. }
  unfold events. destruct Hrun as (w1 & evs1 & -> & Htr1 & Hev1).
  destruct (renameSnapshots_records env (containerNameToLVName newContainerName)
              (snaps c) w1) as (Hr & evs & Htr & Hev).
  split; [exact Hr|].
  rewrite Htr, Htr1, <- app_assoc, drop_app_length.
  rewrite List.map_app. by f_equal.
Qed.

(** C3 (the code departs from it): renaming the container [c1], which has
    the snapshot [c1/snap0], to [my-c] calls the rename once more, for the
    snapshot, but with the new name [my--c/snap0], built from the volume
    name of [my-c] and not from [my-c] itself; the snapshot volume ends up
    as [my----c-snap0] where the volume of [my-c/snap0] is
    [my--c-snap0]. *)
Theorem ContainerRename_snapshot_name_from_volume_name :
  map fst (events (ContainerRename_body Sample.envOk (recordRename Sample.envOk)
                     Sample.driver Sample.c1snap "my-c") Sample.fresh)
  = [Exec "lvrename" ["vg0"; "c1"; "my--c"];
     OsRename "/var/lib/lxd/containers/c1.lv" "/var/lib/lxd/containers/my--c.lv";
     CSnapshots "c1";
     Log LvlDebug "c1/snap0 => my--c/snap0"]
  ∧ map fst (events (ContainerRename Sample.envOk Sample.driver Sample.c1snap "my-c")
               Sample.fresh)
    = [Exec "lvrename" ["vg0"; "c1"; "my--c"];
       OsRename "/var/lib/lxd/containers/c1.lv" "/var/lib/lxd/containers/my--c.lv";
       CSnapshots "c1";
       Exec "lvrename" ["vg0"; "c1-snap0"; "my----c-snap0"];
       OsRename "/var/lib/lxd/snapshots/c1/snap0.lv"
                "/var/lib/lxd/containers/my----c-snap0.lv"]
  ∧ containerNameToLVName ("my-c" +:+ SnapshotDelimiter +:+ "snap0") = "my--c-snap0".
Proof. by vm_compute. Qed.

(** ** Initialising the driver *)

(** C4, counterexample: with the override [ghost], and a [vgdisplay]
    that would fail, [Init] succeeds and binds [ghost] without running
    [vgdisplay]. *)
Lemma Init_override_not_validated : ¬ Init_validates_every_source.
Proof.
  intros Hclaim.
  pose (env := Sample.envFail (Sample.isExec "vgdisplay")
                 (Sample.failed "exit status 5")).
  pose (m := Init env Sample.typeName Sample.driver {["vgName" := IString "ghost"]}).
  pose (s' := mkStorageLvm "ghost" (Some storageTypeLvm) "lvm" "").
  assert (Hruns : runs m Sample.fresh (s', Returned (Some s') None)
                    (m Sample.fresh).2 (events m Sample.fresh)).
  { split; by vm_compute. }
  apply Hclaim in Hruns as (_ & rv & Hin & _).
  vm_compute in Hin. elim_in Hin; discriminate Hin.
Qed.

(** C4 (amended): without an override, [Init] takes the volume group from
    the stored key: it succeeds only with a non-empty stored name that
    [vgdisplay] has accepted, which it binds, and fails with "LVM isn't
    enabled" when the key reads as empty. With an override in the
    configuration map, [Init] binds it as it is once the shared
    initialisation and [lvm version] have succeeded: the stored key is not
    read and [vgdisplay] is not run. *)
Theorem Init_volume_group env typeName s config w s' out w' evs :
  runs (Init env typeName s config) w (s', out) w' evs →
  match default INil (config !! "vgName") with
  | INil =>
      (∀ st, out = Returned st None →
         st = Some s' ∧ vgName s' ≠ ""
         ∧ dconfig w !! "storage.lvm_vg_name" = Some (vgName s')
         ∧ ∃ rv, (Exec "vgdisplay" ["-s"; vgName s'], rv) ∈ evs ∧ err rv = None)
      ∧ (∀ rg, (DConfigValueGet "storage.lvm_vg_name", rg) ∈ evs → err rg = None →
           default "" (dconfig w !! "storage.lvm_vg_name") = "" →
           out = Returned (Some s') (Errorf "LVM isn't enabled"))
  | IString v =>
      (∀ ri rl, (InitShared, ri) ∈ evs → err ri = None →
                (Exec "lvm" ["version"], rl) ∈ evs → err rl = None →
         out = Returned (Some s') None ∧ vgName s' = v)
      ∧ (∀ args rv, (Exec "vgdisplay" args, rv) ∉ evs)
      ∧ (∀ key rg, (DConfigValueGet key, rg) ∉ evs)
  | IOther => ∀ st, out ≠ Returned st None
  end.
Proof.
  intros [H Htr]. unfold Init, storageLVMCheckVolumeGroup in H. unfold_prims H.
  destruct (config !! "vgName") as [[|v|]|] eqn:Hc;
    cbn [default from_option id] in H |- *.
  all: exec H.
  all: injection H as <- <- <-; cbn [fs dconfig trace vgName] in Htr |- *;
    rewrite <- ?app_assoc in Htr; apply app_inv_head in Htr; subst.
  (* no override, or a nil one *)
  all: try (split;
    [ intros st [= <-] || (intros st Hst; discriminate Hst)
    | intros rg Hin Hrg Hempty; elim_in Hin; simplify_eq; try done ]).
  all: try (split_and!; try done;
    [ by destruct (dconfig w !! "storage.lvm_vg_name") as [vg|]; cbn in *
    | eexists; split; [in_list | reflexivity] ]).
  (* an override *)
  all: try (split_and!;
    [ intros ri rl Hi Hri Hl Hrl; elim_in Hi; elim_in Hl; simplify_eq; done
    | intros args rv Hin; elim_in Hin; discriminate Hin
    | intros key rg Hin; elim_in Hin; discriminate Hin ]).
  (* an override that is not a string *)
  all: intros st Hst; discriminate Hst.
Qed.

Lemma Init_volume_group_witness :
  let m := Init Sample.envOk Sample.typeName Sample.unbound ∅ in
  vgName (m Sample.fresh).1.1 = "vg0"
  ∧ ∃ rv, (Exec "vgdisplay" ["-s"; "vg0"], rv) ∈ events m Sample.fresh ∧ err rv = None.
Proof.
  intros m.
  pose (s' := mkStorageLvm "vg0" (Some storageTypeLvm) "lvm" "").
  assert (Hruns : runs m Sample.fresh (s', Returned (Some s') None)
                    (m Sample.fresh).2 (events m Sample.fresh)).
  { split; by vm_compute. }
  pose proof (Init_volume_group Sample.envOk Sample.typeName Sample.unbound ∅
                Sample.fresh s' _ _ _ Hruns) as [Hbound _].
  destruct (Hbound (Some s') eq_refl) as (_ & _ & _ & Hchecked).
  split; [reflexivity | exact Hchecked].
Defined.

(** ** Changing the configuration *)




(** ** Copying a container *)

Ltac step_copy H :=
  lazymatch type of H with
  | context [ContainerDelete ?env ?s ?c ?w0] =>
      let d := fresh "d" in let wd := fresh "wd" in
      let Ed := fresh "Ed" in let Ed' := fresh "Ed" in
      let post := fresh "post" in let Htrd := fresh "Htrd" in let Hevd := fresh "Hevd" in
      destruct (ContainerDelete env s c w0) as [d wd] eqn:Ed;
      pose proof Ed as Ed'; apply ContainerDelete_spec in Ed';
      destruct Ed' as (_ & post & Htrd & Hevd); cbn [trace] in Htrd
  | context [ContainerCreate ?env ?s ?c ?w0] =>
      sub_with (ContainerCreate env s c w0) (ContainerCreate_spec env)
  end.

(** Finds the prefix of a list of events before a given tail. *)
Ltac split_at := first [ reflexivity | rewrite app_assoc; split_at ].

(** [ContainerDelete] starts with the removal of the volume. *)
Lemma ContainerDelete_first_call env s c w d w' post :
  runs (ContainerDelete env s c) w d w' post →
  ∃ r rest,
    post = (Exec "lvremove" ["-f"; vgName s +:+ "/" +:+ containerNameToLVName (Name c)], r)
           :: rest.
Proof.
  intros [H Htr]. unfold ContainerDelete, removeLV in H. unfold_prims H. exec H.
  all: known_events H Htr; by do 2 eexists.
Qed.

(** C5, counterexample: when only the unmount fails, the copy returns
    without any [lvremove], hence without [ContainerDelete]. *)
Lemma ContainerCopy_unmount_failure_keeps_destination :
  ¬ copy_fallback_always_deletes.
Proof.
  intros Hclaim.
  pose (env := Sample.envFail Sample.isUnmount (Sample.failed "device busy")).
  pose (m := ContainerCopy env Sample.driver Sample.c1 Sample.c2).
  assert (Hruns : runs m Sample.fresh (m Sample.fresh).1 (m Sample.fresh).2
                    (events m Sample.fresh)).
  { split; [by destruct (m Sample.fresh)|]. by vm_compute. }
  destruct (Hclaim _ _ _ _ _ _ _ _ Hruns eq_refl (Sample.failed "device busy"))
    as (_ & pre & w1 & d & post & Hevs & _ & Hdel).
  { right; right. vm_compute. in_list. }
  { discriminate. }
  apply ContainerDelete_first_call in Hdel as (rd & rest & ->).
  assert (Hin : (Exec "lvremove" ["-f"; "vg0/c1"], rd) ∈ events m Sample.fresh).
  { rewrite Hevs. apply elem_of_app. right. apply list_elem_of_here. }
  vm_compute in Hin. elim_in Hin; discriminate Hin.
Qed.

(** C5 (amended): in the fallback path of [ContainerCopy], when the mount
    of the new volume fails, or the synchronisation fails, the failure is
    logged, [ContainerDelete] is run on the destination (its own result is
    dropped) and then the error is returned. When the unmount fails, its
    error is returned at once: the destination is not deleted, no volume is
    removed. *)
Theorem ContainerCopy_fallback_cleanup env s c src w r w' evs :
  runs (ContainerCopy env s c src) w r w' evs →
  fs w !! (Path src +:+ ".lv") = None →
  let mount :=
    Exec "mount" ["-o"; "discard";
                  "/dev/" +:+ vgName s +:+ "/" +:+ containerNameToLVName (Name c);
                  Path c] in
  let rsync := RsyncCopy (Path src) (Path c) in
  let umount := SysUnmount (Path c) in
  (∀ rm e, (mount, rm) ∈ evs → err rm = Some e →
     ∃ pre rl w1 d post,
       evs = pre ++ [(mount, rm); (Log LvlError "Error starting/mounting container", rl)]
                 ++ post
       ∧ trace w1 = trace w ++ pre
                    ++ [(mount, rm); (Log LvlError "Error starting/mounting container", rl)]
       ∧ runs (ContainerDelete env s c) w1 d w' post
       ∧ r = Errorf ("Error mounting snapshot LV path='" +:+ Path c +:+ "': "
                     +:+ Error e +:+ nl +:+ "output:'" +:+ output rm +:+ "'"))
  ∧ (∀ rs e, (rsync, rs) ∈ evs → err rs = Some e →
     ∃ pre rl w1 d post,
       evs = pre ++ [(rsync, rs); (Log LvlError "ContainerCopy: rsync failed", rl)] ++ post
       ∧ trace w1 = trace w ++ pre
                    ++ [(rsync, rs); (Log LvlError "ContainerCopy: rsync failed", rl)]
       ∧ runs (ContainerDelete env s c) w1 d w' post
       ∧ r = Errorf ("rsync failed: " +:+ output rs))
  ∧ (∀ ru e, (umount, ru) ∈ evs → err ru = Some e →
       r = Errorf ("failed to unmount container path '" +:+ Path c +:+ "'." +:+ nl
                   +:+ "Error: " +:+ Error e)
       ∧ (∃ pre, evs = pre ++ [(umount, ru)])
       ∧ ∀ args rr, (Exec "lvremove" args, rr) ∉ evs).
Proof.
  intros [H Htr] Hsrc mount rsync umount. subst mount rsync umount.
  unfold ContainerCopy, ContainerStart, ContainerStop in H. unfold_prims H.
  rewrite Hsrc in H.
  change (bool_decide (is_Some (@None FsNode))) with false in H.
  repeat (norm H; first [step_copy H | step_call H | step_match H]); norm H.
  all: injection H as <- <-; cbn [fs dconfig trace] in Htr |- *.
  all: try (rewrite Htrd in Htr).
  all: rewrite <- ?app_assoc in Htr; apply app_inv_head in Htr; subst evs.
  all: split_and!.
  all: intros rx e' Hin Hrx; elim_in Hin; try class_contra Hin; try discriminate Hin.
  all: simplify_eq; cbn [err output] in *; simplify_eq.
  all: try (match goal with Ed : ContainerDelete _ _ _ ?W1 = (?d, _) |- _ =>
        do 2 eexists; exists W1, d; eexists; split_and!;
        [ split_at
        | cbn [trace]; rewrite <- ?app_assoc; reflexivity
        | split; [exact Ed | exact Htrd]
        | reflexivity ] end).
  all: split_and!;
    [ reflexivity
    | eexists; rewrite ?app_assoc; reflexivity
    | intros args rr Hin; elim_in Hin; try class_contra Hin; discriminate Hin ].
Qed.

Lemma ContainerCopy_fallback_cleanup_witness :
  let env := Sample.envFail Sample.isRsync (mkResp "rsync: write failed" []
                                              (Some (ErrorString "exit status 11"))) in
  let m := ContainerCopy env Sample.driver Sample.c1 Sample.c2 in
  (m Sample.fresh).1 = Errorf "rsync failed: rsync: write failed"
  ∧ deleted_before_return env Sample.driver Sample.c1 Sample.fresh (m Sample.fresh).2
      (events m Sample.fresh).
Proof.
  intros env m.
  assert (Hruns : runs m Sample.fresh (m Sample.fresh).1 (m Sample.fresh).2
                    (events m Sample.fresh)).
  { split; [by destruct (m Sample.fresh)|]. by vm_compute. }
  destruct (ContainerCopy_fallback_cleanup env Sample.driver Sample.c1 Sample.c2
              Sample.fresh _ _ _ Hruns eq_refl) as (_ & Hsync & _).
  destruct (Hsync (mkResp "rsync: write failed" [] (Some (ErrorString "exit status 11")))
              (ErrorString "exit status 11"))
    as (pre & rl & w1 & d & post & Hevs & Htr1 & Hdel & Hr).
  { vm_compute. in_list. }
  { reflexivity. }
  split; [exact Hr|].
  exists (pre ++ [(RsyncCopy (Path Sample.c2) (Path Sample.c1),
                   mkResp "rsync: write failed" [] (Some (ErrorString "exit status 11")));
                  (Log LvlError "ContainerCopy: rsync failed", rl)]), w1, d, post.
  split_and!; [rewrite <- app_assoc; exact Hevs | exact Htr1 | exact Hdel].
Defined.

(** * Further properties of the driver *)

(** ** More on the name mapping *)

Lemma append_assoc' (a b c : string) : (a +:+ b) +:+ c = a +:+ (b +:+ c).
Proof.
  induction a as [|x a IH]; [done|].
  change (String x ((a +:+ b) +:+ c) = String x (a +:+ b +:+ c)). by f_equal.
Qed.

Lemma replace_single_app (c : ascii) new a b :
  strings.replace_from 0 (String c "") new (a +:+ b)
  = strings.replace_from 0 (String c "") new a
    +:+ strings.replace_from 0 (String c "") new b.
Proof.
  induction a as [|x a IH]; [done|].
  change (String x a +:+ b) with (String x (a +:+ b)).
  rewrite !replace_single_cons, IH.
  case_bool_decide; [by rewrite append_assoc'|done].
Qed.

(** X1: the volume name of a concatenation is the concatenation of the volume
    names: [containerNameToLVName] maps a name byte by byte. *)
Theorem containerNameToLVName_app (a b : string) :
  containerNameToLVName (a +:+ b)
  = containerNameToLVName a +:+ containerNameToLVName b.
Proof.
  cbv [containerNameToLVName strings.Replace SnapshotDelimiter].
  by rewrite !replace_single_app.
Qed.

Lemma replace_delim_no_delim s :
  strings.Contains (strings.replace_from 0 "/" "-" s) "/" = false.
Proof.
  induction s as [|a s IH]; [done|].
  rewrite replace_single_cons. case_bool_decide as Ha.
  - change ("-" +:+ ?x) with (String "-" x). rewrite Contains_single_cons.
    by rewrite IH.
  - rewrite Contains_single_cons, IH. by case_bool_decide.
Qed.

(** X2: no volume name contains the snapshot delimiter. *)
Theorem containerNameToLVName_no_delimiter (name : string) :
  strings.Contains (containerNameToLVName name) SnapshotDelimiter = false.
Proof.
  cbv [containerNameToLVName strings.Replace SnapshotDelimiter].
  apply replace_delim_no_delim.
Qed.

(** X3: whatever stands before and after, a delimiter followed by a hyphen and
    a hyphen followed by a delimiter give the same volume name: with
    delimiters in the names the mapping is not injective. *)
Theorem containerNameToLVName_collision (a b : string) :
  a +:+ "/-" +:+ b ≠ a +:+ "-/" +:+ b
  ∧ containerNameToLVName (a +:+ "/-" +:+ b) = containerNameToLVName (a +:+ "-/" +:+ b).
Proof.
  split.
  - induction a as [|x a IH]; cbn; [discriminate|]. intros [= H]. by apply IH.
  - cbv [containerNameToLVName strings.Replace SnapshotDelimiter].
    by rewrite !replace_single_app.
Qed.

(** X4: a name with neither a hyphen nor the delimiter is its own volume name. *)
Theorem containerNameToLVName_plain_name (name : string) :
  strings.Contains name "-" = false →
  strings.Contains name SnapshotDelimiter = false →
  containerNameToLVName name = name.
Proof.
  intros Hh Hd. cbv [containerNameToLVName strings.Replace SnapshotDelimiter] in *.
  by rewrite (replace_single_absent "-" "--" name Hh), (replace_single_absent "/" "-" name Hd).
Qed.

Lemma containerNameToLVName_plain_name_witness :
  containerNameToLVName "web01" = "web01".
Proof. by apply containerNameToLVName_plain_name. Defined.

Lemma containerNameToLVName_rw name :
  containerNameToLVName (name +:+ "/rw") = containerNameToLVName name +:+ "-rw".
Proof.
  cbv [containerNameToLVName strings.Replace SnapshotDelimiter].
  by rewrite !replace_single_app.
Qed.

(** ** More on the pool guard *)

Ltac prune :=
  try contradiction;
  try match goal with E : storageLvmDefaultThinPoolName = "" |- _ => discriminate E end.

Ltac exec_prune H :=
  repeat (norm H; first [step_part H | step_call H | step_match H]; prune); norm H.

Ltac not_in := let Hin := fresh "Hin" in
  intros Hin; elim_in Hin; try class_contra Hin; discriminate Hin.

Ltac none_in := let a := fresh in let b := fresh in intros a b; not_in.

Ltac leaf3 H Htr :=
  injection H; clear H; intros; subst; cbn [fs dconfig trace with_dconfig with_fs] in Htr |- *;
  rewrite <- ?app_assoc in Htr; apply app_inv_head in Htr; subst.

(** Membership in a list of events that is written out but for the events
    of finished parts. *)
Ltac in_events :=
  repeat first [ apply list_elem_of_here | apply list_elem_of_further
               | apply elem_of_app; right ].

(** The run of [m] in [w], with what it returns and leaves. *)
Ltac run_of m w H :=
  assert (H : runs m w (m w).1 (m w).2 (events m w))
    by (split; [by destruct (m w) | by vm_compute]).

(** X5: when the stored volume group name or the stored pool name reads as
    empty, [storageLVMGetThinPoolUsers] reports no user, whatever links
    exist, and lists neither the containers nor the images of the database;
    it changes neither the filesystem nor the configuration. *)
Theorem storageLVMGetThinPoolUsers_unconfigured env w r w' evs :
  runs (storageLVMGetThinPoolUsers env) w r w' evs →
  stored w vgKey = "" ∨ stored w poolKey = "" →
  r.1 = [] ∧ fs w' = fs w ∧ dconfig w' = dconfig w
  ∧ ∀ rl, ((DbContainersList, rl) ∉ evs) ∧ ((DbImagesGet, rl) ∉ evs).
Proof.
  unfold stored, vgKey, poolKey. intros [H Htr] Hun.
  unfold storageLVMGetThinPoolUsers in H. unfold_prims H.
  destruct Hun; exec_prune H.
  all: known_events H Htr; split_and!; try done.
  all: intros rl; split; not_in.
Qed.

Lemma storageLVMGetThinPoolUsers_unconfigured_witness :
  (storageLVMGetThinPoolUsers Sample.envOk Sample.fresh).1.1 = [].
Proof.
  pose (m := storageLVMGetThinPoolUsers Sample.envOk).
  run_of m Sample.fresh Hruns. subst m.
  destruct (storageLVMGetThinPoolUsers_unconfigured Sample.envOk Sample.fresh _ _ _ Hruns)
    as [Hr _]; [right; by vm_compute | exact Hr].
Defined.

(** X6: when both listings of the database were made,
    [storageLVMGetThinPoolUsers] returns the error of the image listing, and
    as users the listed containers and snapshots whose link exists, in the
    order of the listing, followed, when the image listing succeeded, by the
    listed images whose link exists. *)
Theorem storageLVMGetThinPoolUsers_result env w users e w' evs :
  runs (storageLVMGetThinPoolUsers env) w (users, e) w' evs →
  ∀ rc ri, (DbContainersList, rc) ∈ evs → (DbImagesGet, ri) ∈ evs →
    e = err ri
    ∧ users = linked containerLink w (names rc)
              ++ (if err ri is None then linked imageLink w (names ri) else []).
Proof.
  intros [H Htr]. unfold storageLVMGetThinPoolUsers in H. unfold_prims H. exec H.
  all: injection H as <- <- <-; cbn [fs dconfig trace] in Htr |- *;
    rewrite <- ?app_assoc in Htr; apply app_inv_head in Htr; subst.
  all: intros rc ri Hc Hi; elim_in Hc; try discriminate Hc.
  all: elim_in Hi; try discriminate Hi.
  all: simplify_eq; cbn [err names]; split; try done.
  all: by rewrite ?app_nil_r.
Qed.

Lemma storageLVMGetThinPoolUsers_result_witness :
  (storageLVMGetThinPoolUsers Sample.envOk Sample.linkedConfigured).1 = (["c1"], None).
Proof.
  pose (m := storageLVMGetThinPoolUsers Sample.envOk).
  assert (Hruns : runs m Sample.linkedConfigured ((m Sample.linkedConfigured).1.1,
                    (m Sample.linkedConfigured).1.2) (m Sample.linkedConfigured).2
                    (events m Sample.linkedConfigured)).
  { split; by vm_compute. }
  subst m. destruct (storageLVMGetThinPoolUsers_result Sample.envOk Sample.linkedConfigured
              _ _ _ _ Hruns (mkResp "" ["c1"] None) (mkResp "" ["abc123"] None))
    as [He Hu].
  { vm_compute. in_list. }
  { vm_compute. in_list. }
  destruct (storageLVMGetThinPoolUsers Sample.envOk Sample.linkedConfigured)
    as [[users e] w']. cbn [fst snd] in *.
  rewrite He, Hu. by vm_compute.
Defined.

(** X7: when [storageLVMSetThinPoolNameConfig] succeeds, the pool key holds
    the new name and nothing else has changed; for a non-empty name the
    stored volume group name is not empty and the [vgs] query for that pool
    in that group succeeded with attributes that start with [t]. *)
Theorem storageLVMSetThinPoolNameConfig_success env poolname w w' evs :
  runs (storageLVMSetThinPoolNameConfig env poolname) w None w' evs →
  dconfig w' = <[poolKey := poolname]> (dconfig w) ∧ fs w' = fs w
  ∧ (poolname ≠ "" →
     stored w vgKey ≠ ""
     ∧ ∃ rv, (Exec "vgs" ["--noheadings"; "-o"; "lv_attr";
                          stored w vgKey +:+ "/" +:+ poolname], rv) ∈ evs
             ∧ err rv = None
             ∧ strings.HasPrefix (strings.TrimSpace (output rv)) "t" = true).
Proof.
  unfold stored, vgKey, poolKey. intros [H Htr].
  unfold storageLVMSetThinPoolNameConfig, storageLVMGetThinPoolUsers,
    storageLVMThinpoolExists in H.
  unfold_prims H. exec H.
  all: try discriminate H.
  all: leaf3 H Htr; split_and!; try done.
  all: intros _; split; [done|]; eexists; split_and!; [in_list | done | done].
Qed.

Lemma storageLVMSetThinPoolNameConfig_success_witness :
  dconfig (storageLVMSetThinPoolNameConfig Sample.envOk "LXDPool" Sample.fresh).2
  = <[poolKey := "LXDPool"]> (dconfig Sample.fresh).
Proof.
  pose (m := storageLVMSetThinPoolNameConfig Sample.envOk "LXDPool").
  assert (Hruns : runs m Sample.fresh None (m Sample.fresh).2 (events m Sample.fresh))
    by (split; by vm_compute).
  subst m. by destruct (storageLVMSetThinPoolNameConfig_success _ _ _ _ _ Hruns) as [Hcfg _].
Defined.

(** X8: when [storageLVMSetVolumeGroupNameConfig] succeeds, the volume group
    key holds the new name and nothing else has changed; a non-empty name
    has been accepted by [vgdisplay]. *)
Theorem storageLVMSetVolumeGroupNameConfig_success env vgname w w' evs :
  runs (storageLVMSetVolumeGroupNameConfig env vgname) w None w' evs →
  dconfig w' = <[vgKey := vgname]> (dconfig w) ∧ fs w' = fs w
  ∧ (vgname ≠ "" →
     ∃ rv, (Exec "vgdisplay" ["-s"; vgname], rv) ∈ evs ∧ err rv = None).
Proof.
  unfold stored, vgKey, poolKey. intros [H Htr].
  unfold storageLVMSetVolumeGroupNameConfig, storageLVMGetThinPoolUsers,
    storageLVMCheckVolumeGroup in H.
  unfold_prims H. exec H.
  all: try discriminate H.
  all: leaf3 H Htr; split_and!; try done.
  all: intros _; eexists; split; [in_list | done].
Qed.

Lemma storageLVMSetVolumeGroupNameConfig_success_witness :
  dconfig (storageLVMSetVolumeGroupNameConfig Sample.envOk "vg1" Sample.fresh).2
  = <[vgKey := "vg1"]> (dconfig Sample.fresh).
Proof.
  pose (m := storageLVMSetVolumeGroupNameConfig Sample.envOk "vg1").
  assert (Hruns : runs m Sample.fresh None (m Sample.fresh).2 (events m Sample.fresh))
    by (split; by vm_compute).
  subst m. by destruct (storageLVMSetVolumeGroupNameConfig_success _ _ _ _ _ Hruns) as [Hcfg _].
Defined.

(** X9: when one of the two setters fails, for whatever reason, the
    configuration and the filesystem are as before, and no write of the
    configuration has succeeded. *)
Theorem config_setters_failure_writes_nothing env w m :
  (∃ vg, m = storageLVMSetVolumeGroupNameConfig env vg)
  ∨ (∃ pool, m = storageLVMSetThinPoolNameConfig env pool) →
  ∀ e w' evs, runs m w (Some e) w' evs →
    dconfig w' = dconfig w ∧ fs w' = fs w
    ∧ ∀ key value rs, (DConfigValueSet key value, rs) ∈ evs → err rs ≠ None.
Proof.
  intros [[vg ->]|[pool ->]] e w' evs [H Htr].
  - unfold storageLVMSetVolumeGroupNameConfig, storageLVMGetThinPoolUsers,
      storageLVMCheckVolumeGroup in H.
    unfold_prims H. exec H.
    all: try discriminate H.
    all: leaf3 H Htr; split_and!; try done.
    all: intros key value rs Hin; elim_in Hin; try discriminate Hin; by simplify_eq.
  - unfold storageLVMSetThinPoolNameConfig, storageLVMGetThinPoolUsers,
      storageLVMThinpoolExists in H.
    unfold_prims H. exec H.
    all: try discriminate H.
    all: leaf3 H Htr; split_and!; try done.
    all: intros key value rs Hin; elim_in Hin; try discriminate Hin; by simplify_eq.
Qed.

Lemma config_setters_failure_writes_nothing_witness :
  let env := Sample.envFail (Sample.isExec "vgdisplay") (Sample.failed "exit status 5") in
  let m := storageLVMSetVolumeGroupNameConfig env "vg1" in
  (m Sample.fresh).1 = Errorf "LVM volume group 'vg1' not found"
  ∧ dconfig (m Sample.fresh).2 = dconfig Sample.fresh.
Proof.
  intros env m.
  assert (Hruns : runs m Sample.fresh (Some (ErrorString "LVM volume group 'vg1' not found"))
                    (m Sample.fresh).2 (events m Sample.fresh))
    by (split; by vm_compute).
  subst m. destruct (config_setters_failure_writes_nothing env Sample.fresh _
              (or_introl (ex_intro _ "vg1" eq_refl)) _ _ _ Hruns) as (Hcfg & _).
  split; [by vm_compute | exact Hcfg].
Defined.

(** ** Allocating a volume *)

Ltac step_pool H :=
  lazymatch type of H with
  | context [storageLVMSetThinPoolNameConfig ?env ?p ?w] =>
      sub_with (storageLVMSetThinPoolNameConfig env p w)
               (storageLVMSetThinPoolNameConfig_spec env)
  | context [createDefaultThinPool ?env ?s ?w] =>
      sub_with (createDefaultThinPool env s w) (createDefaultThinPool_spec env)
  end.

(** What [createThinLV] returns when it succeeds is the device path of
    the volume. *)
Lemma createThinLV_path env s lvname w lvpath w' :
  createThinLV env s lvname w = ((lvpath, None), w') →
  lvpath = "/dev/" +:+ vgName s +:+ "/" +:+ lvname.
Proof.
  intros H. unfold createThinLV in H. unfold_prims H.
  repeat (norm H; first [step_pool H | step_call H | step_match H]); norm H.
  all: by simplify_eq.
Qed.

Lemma createSnapshotLV_path env s lvname orig ro w lvpath w' :
  createSnapshotLV env s lvname orig ro w = ((lvpath, None), w') →
  lvpath = "/dev/" +:+ vgName s +:+ "/" +:+ lvname.
Proof.
  intros H. unfold createSnapshotLV in H. unfold_prims H. exec H.
  all: by simplify_eq.
Qed.


(** X10: with a pool name stored, [createThinLV] creates no pool and leaves the
    configuration and the filesystem alone; when it succeeds it returns the
    device path [/dev/<vg>/<lvname>], after a thin [lvcreate] in the stored
    pool and an [mkfs.ext4] of the device that both succeeded. *)
Theorem createThinLV_pool_configured env s lvname w r w' evs :
  runs (createThinLV env s lvname) w r w' evs →
  stored w poolKey ≠ "" →
  dconfig w' = dconfig w ∧ fs w' = fs w
  ∧ (∀ args rr, (Exec "lvcreate" ("--poolmetadatasize" :: args), rr) ∉ evs)
  ∧ (r.2 = None →
     r.1 = "/dev/" +:+ vgName s +:+ "/" +:+ lvname
     ∧ ∃ ra rm,
         (Exec "lvcreate" ["--thin"; "-n"; lvname; "--virtualsize";
                           storageLvmDefaultThinLVSize;
                           vgName s +:+ "/" +:+ stored w poolKey], ra) ∈ evs
         ∧ err ra = None
         ∧ (Exec "mkfs.ext4" ["-E"; "nodiscard,lazy_itable_init=0,lazy_journal_init=0";
                              "/dev/" +:+ vgName s +:+ "/" +:+ lvname], rm) ∈ evs
         ∧ err rm = None).
Proof.
  unfold stored, poolKey. intros [H Htr] Hp.
  unfold createThinLV in H. unfold_prims H. exec_prune H.
  all: leaf3 H Htr; cbn [fst snd]; split_and!; try done.
  all: try (intros args rr; not_in).
  all: intros _; split; [done|]; do 2 eexists; split_and!; [in_list|done|in_list|done].
Qed.

Lemma createThinLV_pool_configured_witness :
  (createThinLV Sample.envOk Sample.driver "c9" Sample.withImage).1
  = ("/dev/vg0/c9", None)
  ∧ dconfig (createThinLV Sample.envOk Sample.driver "c9" Sample.withImage).2
    = dconfig Sample.withImage.
Proof.
  pose (m := createThinLV Sample.envOk Sample.driver "c9").
  run_of m Sample.withImage Hruns. subst m.
  destruct (createThinLV_pool_configured _ _ _ _ _ _ _ Hruns) as (Hcfg & _).
  { by vm_compute. }
  split; [by vm_compute | exact Hcfg].
Defined.

(** X11: when no pool name is stored and [createThinLV] succeeds, the default
    pool has been created first, its name is now the stored pool name, the
    stored volume group name is not empty, and the volume was allocated in
    that default pool, after the pool was created. *)
Theorem createThinLV_bootstraps_pool env s lvname w lvpath w' evs :
  runs (createThinLV env s lvname) w (lvpath, None) w' evs →
  stored w poolKey = "" →
  dconfig w' = <[poolKey := storageLvmDefaultThinPoolName]> (dconfig w)
  ∧ stored w vgKey ≠ ""
  ∧ ∃ pre rp post ra,
      evs = pre ++ [(Exec "lvcreate" ["--poolmetadatasize"; "1G"; "-l"; "100%FREE";
                                      "--thinpool";
                                      vgName s +:+ "/" +:+ storageLvmDefaultThinPoolName],
                     rp)] ++ post
      ∧ err rp = None
      ∧ (Exec "lvcreate" ["--thin"; "-n"; lvname; "--virtualsize";
                          storageLvmDefaultThinLVSize;
                          vgName s +:+ "/" +:+ storageLvmDefaultThinPoolName], ra) ∈ post
      ∧ err ra = None.
Proof.
  unfold stored, poolKey, vgKey. intros [H Htr] Hp.
  unfold createThinLV, createDefaultThinPool, storageLVMSetThinPoolNameConfig,
    storageLVMGetThinPoolUsers, storageLVMThinpoolExists in H.
  unfold_prims H. exec_prune H.
  all: try discriminate H.
  all: leaf3 H Htr; split_and!; try done.
  all: do 4 eexists; split_and!;
    [ rewrite (app_assoc _ [_]); split_at | done | in_list | done ].
Qed.

Lemma createThinLV_bootstraps_pool_witness :
  dconfig (createThinLV Sample.envOk Sample.driver "c9" Sample.fresh).2
  = <[poolKey := storageLvmDefaultThinPoolName]> (dconfig Sample.fresh).
Proof.
  pose (m := createThinLV Sample.envOk Sample.driver "c9").
  assert (Hruns : runs m Sample.fresh ("/dev/vg0/c9", None) (m Sample.fresh).2
                    (events m Sample.fresh))
    by (split; by vm_compute).
  subst m. destruct (createThinLV_bootstraps_pool _ _ _ _ _ _ _ Hruns) as (Hcfg & _).
  { by vm_compute. }
  exact Hcfg.
Defined.

(** X12: when neither a pool name nor a volume group name is stored,
    [createThinLV] fails, even with a driver bound to a volume group: the
    configuration is not written and no volume is allocated. *)
Theorem createThinLV_needs_stored_group env s lvname w r w' evs :
  runs (createThinLV env s lvname) w r w' evs →
  stored w poolKey = "" → stored w vgKey = "" →
  r.2 ≠ None ∧ dconfig w' = dconfig w
  ∧ ∀ args rr, (Exec "lvcreate" ("--thin" :: args), rr) ∉ evs.
Proof.
  unfold stored, poolKey, vgKey. intros [H Htr] Hp Hv.
  unfold createThinLV, createDefaultThinPool, storageLVMSetThinPoolNameConfig,
    storageLVMGetThinPoolUsers, storageLVMThinpoolExists in H.
  unfold_prims H. exec_prune H.
  all: leaf3 H Htr; cbn [fst snd]; split_and!; try done.
  all: intros args rr; not_in.
Qed.

Lemma createThinLV_needs_stored_group_witness :
  (createThinLV Sample.envOk Sample.driver "c9" Sample.linkedUnconfigured).1.2 ≠ None.
Proof.
  pose (m := createThinLV Sample.envOk Sample.driver "c9").
  run_of m Sample.linkedUnconfigured Hruns. subst m.
  destruct (createThinLV_needs_stored_group _ _ _ _ _ _ _ Hruns) as (Hr & _).
  { by vm_compute. }
  { by vm_compute. }
  exact Hr.
Defined.

(** ** Creating and deleting a container *)

(** The directory [os.MkdirAll] makes adds no link. *)
Lemma mkdir_links (m : gmap string FsNode) dir p target :
  match m !! dir with Some _ => m | None => <[dir := FsDir]> m end !! p
  = Some (FsSymlink target) →
  m !! p = Some (FsSymlink target).
Proof.
  destruct (m !! dir) eqn:E; [done|].
  destruct (decide (p = dir)) as [->|Hne].
  - by rewrite lookup_insert_eq.
  - by rewrite lookup_insert_ne.
Qed.

(** What [os.RemoveAll] leaves. *)
Lemma lookup_removeAll_out (m : gmap string FsNode) root p :
  under root p = false →
  filter (λ kv : string * FsNode, under root kv.1 = false) m !! p = m !! p.
Proof.
  intros Hu. rewrite map_lookup_filter. destruct (m !! p) as [x|]; [|done].
  cbn. by rewrite option_guard_True.
Qed.



(** X13: when [ContainerCreate] succeeds, the link
    [containers/<name>.lv] points at the device [/dev/<vg>/<volume name>];
    when it fails, it has added no link (every link there is was there
    before); in neither case does it remove a volume, so a volume allocated
    before a later step failed stays. *)
Theorem ContainerCreate_link env s c w r w' evs :
  runs (ContainerCreate env s c) w r w' evs →
  let dst := VarPath ["containers"; Name c +:+ ".lv"] in
  match r with
  | None =>
      fs w' !! dst
      = Some (FsSymlink ("/dev/" +:+ vgName s +:+ "/" +:+ containerNameToLVName (Name c)))
  | Some _ =>
      ∀ p target, fs w' !! p = Some (FsSymlink target) →
                  fs w !! p = Some (FsSymlink target)
  end
  ∧ ∀ args rr, (Exec "lvremove" args, rr) ∉ evs.
Proof.
  intros [H Htr] dst. subst dst.
  unfold ContainerCreate in H. unfold bind at 1 in H.
  destruct (createThinLV env s _ w) as [[lvpath e] w1] eqn:E.
  pose proof E as E'. apply createThinLV_spec in E'. absorb E' w1.
  destruct e as [e|]; [|apply createThinLV_path in E as ->].
  all: unfold_prims H; repeat (norm H; step_call H); norm H.
  all: leaf3 H Htr; split; try (intros args rr; not_in).
  all: try done.
  - apply mkdir_links.
  - apply lookup_insert_eq.
Qed.

Lemma ContainerCreate_link_witness :
  fs (ContainerCreate Sample.envOk Sample.driver Sample.c1 Sample.withImage).2
    !! "/var/lib/lxd/containers/c1.lv"
  = Some (FsSymlink "/dev/vg0/c1").
Proof.
  pose (m := ContainerCreate Sample.envOk Sample.driver Sample.c1).
  assert (Hruns : runs m Sample.withImage None (m Sample.withImage).2
                    (events m Sample.withImage))
    by (split; by vm_compute).
  subst m. destruct (ContainerCreate_link _ _ _ _ _ _ _ Hruns) as [Hlink _].
  exact Hlink.
Defined.



(** ** Images *)

(** X15: when [ImageCreate] succeeds, the temporary directory was made, the
    image was unpacked into it and it was unmounted, all three with success;
    the link [images/<fingerprint>.lv] points at the device of the image
    volume (provided the temporary directory is not above that link). *)
Theorem ImageCreate_success env s fingerprint w w' evs :
  runs (ImageCreate env s fingerprint) w None w' evs →
  let link := VarPath ["images"; fingerprint +:+ ".lv"] in
  ∃ rt ru rm,
    (IoTempDir (VarPath ["images"]) "tmp_lv_mnt", rt) ∈ evs ∧ err rt = None
    ∧ (UntarImage (VarPath ["images"; fingerprint]) (output rt), ru) ∈ evs ∧ err ru = None
    ∧ (SysUnmount (output rt), rm) ∈ evs ∧ err rm = None
    ∧ (under (output rt) link = false →
       fs w' !! link
       = Some (FsSymlink ("/dev/" +:+ vgName s +:+ "/" +:+ fingerprint))).
Proof.
  intros [H Htr] link. subst link.
  unfold ImageCreate in H. unfold bind at 1 in H.
  destruct (createThinLV env s _ w) as [[lvpath e] wt] eqn:E.
  pose proof E as Ef. apply createThinLV_spec in Ef. absorb Ef wt.
  destruct e as [e|]; [|apply createThinLV_path in E as ->].
  all: unfold_prims H; repeat (norm H; first [step_call H | step_match H]); norm H.
  all: try discriminate H.
  all: leaf3 H Htr; do 3 eexists;
    (split_and!; [in_events | done | in_events | done | in_events | done | ]);
    cbn [output]; intros Hu.
  all: rewrite ?lookup_removeAll_out by done.
  all: rewrite lookup_insert_ne by (intros ->; by rewrite under_refl in Hu).
  all: apply lookup_insert_eq.
Qed.

Lemma ImageCreate_success_witness :
  fs (ImageCreate Sample.envOk Sample.driver "def456" Sample.withImage).2
    !! "/var/lib/lxd/images/def456.lv"
  = Some (FsSymlink "/dev/vg0/def456").
Proof.
  pose (m := ImageCreate Sample.envOk Sample.driver "def456").
  assert (Hruns : runs m Sample.withImage None (m Sample.withImage).2
                    (events m Sample.withImage))
    by (split; by vm_compute).
  subst m. destruct (ImageCreate_success _ _ _ _ _ _ Hruns)
    as (rt & ru & rm & Hrt & _ & _ & _ & _ & _ & Hlink).
  apply Hlink. vm_compute in Hrt. elim_in Hrt; simplify_eq. by vm_compute.
Defined.

(** X16: [ImageDelete] never touches the configuration; when it succeeds, the
    volume of the image was removed and the filesystem differs by the link
    [images/<fingerprint>.lv] alone; when it fails, the filesystem is
    unchanged, also when the volume is already removed and only the
    removal of the link failed. *)
Theorem ImageDelete_outcome env s fingerprint w r w' evs :
  runs (ImageDelete env s fingerprint) w r w' evs →
  let link := VarPath ["images"; fingerprint] +:+ ".lv" in
  dconfig w' = dconfig w
  ∧ match r with
    | None =>
        fs w' = delete link (fs w)
        ∧ ∃ rr, (Exec "lvremove" ["-f"; vgName s +:+ "/" +:+ fingerprint], rr) ∈ evs
                ∧ err rr = None
    | Some _ => fs w' = fs w
    end.
Proof.
  intros [H Htr] link. subst link.
  unfold ImageDelete, removeLV in H. unfold_prims H. exec H.
  all: leaf3 H Htr; split; try done.
  split; [done|]. eexists; split; [in_list|done].
Qed.

Lemma ImageDelete_outcome_witness :
  fs (ImageDelete Sample.envOk Sample.driver "abc123" Sample.withImage).2
  = delete "/var/lib/lxd/images/abc123.lv" (fs Sample.withImage).
Proof.
  pose (m := ImageDelete Sample.envOk Sample.driver "abc123").
  assert (Hruns : runs m Sample.withImage None (m Sample.withImage).2
                    (events m Sample.withImage))
    by (split; by vm_compute).
  subst m. destruct (ImageDelete_outcome _ _ _ _ _ _ _ Hruns) as (_ & Hfs & _).
  exact Hfs.
Defined.

(** ** Creating a container from an image, copying *)

(** The run ends with the run of [ContainerDelete] at hand. *)
Ltac deleted_last :=
  match goal with
  | Ed : ContainerDelete _ _ _ ?W1 = (?d, _), Htrd : trace _ = _ ++ ?post
    |- deleted_before_return _ _ _ _ _ _ =>
      eexists; exists W1, d, post; split_and!;
      [ split_at
      | cbn [trace]; rewrite <- ?app_assoc; reflexivity
      | split; [exact Ed | exact Htrd] ]
  end.

(** X17: with the image already linked, when the mount of the new volume fails
    [ContainerCreateFromImage] ends with a run of [ContainerDelete] on the
    container and returns the error of the mount with its output. When
    the shift of the root filesystem fails, the container is unprivileged
    and the path is unmounted: if the unmount succeeds the run ends with
    [ContainerDelete] and the error of the shift is returned; if the
    unmount fails, an error naming both is returned and no volume is
    removed. *)
Theorem ContainerCreateFromImage_rollback env s c fingerprint w r w' evs :
  runs (ContainerCreateFromImage env s c fingerprint) w r w' evs →
  is_Some (fs w !! VarPath ["images"; fingerprint +:+ ".lv"]) →
  (∀ args rm e, (Exec "mount" args, rm) ∈ evs → err rm = Some e →
     r = Errorf ("Error mounting snapshot LV: " +:+ Error e +:+ nl
                 +:+ "output:'" +:+ output rm +:+ "'")
     ∧ deleted_before_return env s c w w' evs)
  ∧ (∀ rs e, (ShiftRootfs (Name c), rs) ∈ evs → err rs = Some e →
     IsPrivileged c = false
     ∧ ∃ ru, (SysUnmount (Path c), ru) ∈ evs
       ∧ match err ru with
         | Some e2 =>
             r = Errorf ("Error in umount: '" +:+ Error e2
                         +:+ "' while cleaning up after error in shiftRootfs: '"
                         +:+ Error e +:+ "'")
             ∧ ∀ args rr, (Exec "lvremove" args, rr) ∉ evs
         | None =>
             r = Errorf ("Error in shiftRootfs: " +:+ Error e)
             ∧ deleted_before_return env s c w w' evs
         end).
Proof.
  intros [H Htr] Himg. unfold ContainerCreateFromImage in H. unfold_prims H.
  rewrite bool_decide_eq_true_2 in H by done.
  repeat (norm H; first [step_copy H | step_part H | step_call H | step_match H]); norm H.
  all: injection H as <- <-; cbn [fs dconfig trace] in Htr |- *.
  all: try (rewrite Htrd in Htr).
  all: rewrite <- ?app_assoc in Htr; apply app_inv_head in Htr; subst evs.
  all: split.
  all: try (intros args rx e' Hin Hrx; elim_in Hin; try class_contra Hin;
            try discriminate Hin; simplify_eq; cbn [err output] in *; simplify_eq).
  all: try (intros rx e' Hin Hrx; elim_in Hin; try class_contra Hin;
            try discriminate Hin; simplify_eq; cbn [err output] in *; simplify_eq).
  all: try (split; [reflexivity|]).
  all: try (split; [by apply negb_true_iff|]).
  all: try deleted_last.
  all: eexists; (split; [in_events|]); cbn [err]; split; try reflexivity.
  all: try deleted_last.
  all: none_in.
Qed.

Lemma ContainerCreateFromImage_rollback_witness :
  let env := Sample.envFail (Sample.isExec "mount") (Sample.failed "exit status 32") in
  let m := ContainerCreateFromImage env Sample.driver Sample.c1 "abc123" in
  deleted_before_return env Sample.driver Sample.c1 Sample.withImage
    (m Sample.withImage).2 (events m Sample.withImage).
Proof.
  intros env m. run_of m Sample.withImage Hruns. subst m.
  destruct (ContainerCreateFromImage_rollback _ _ _ _ _ _ _ _ Hruns) as [Hmount _].
  { vm_compute. eauto. }
  destruct (Hmount ["-o"; "discard"; "/dev/vg0/c1"; "/var/lib/lxd/containers/c1"]
              (Sample.failed "exit status 32") (ErrorString "exit status 32"))
    as [_ Hdel].
  { vm_compute. in_list. }
  { reflexivity. }
  exact Hdel.
Defined.

(** X18: when the source has its link, [ContainerCopy] clones: it never
    synchronises files, mounts, removes a volume or activates one
    read-only, and leaves the configuration alone, so a clone whose
    directory or link could not be made is not removed. When it succeeds,
    the volume of the destination was cloned from the volume of the source,
    its link points at the device, and the copy hook succeeded. *)
Theorem ContainerCopy_linked_source env s c src w r w' evs :
  runs (ContainerCopy env s c src) w r w' evs →
  is_Some (fs w !! (Path src +:+ ".lv")) →
  let dev := "/dev/" +:+ vgName s +:+ "/" +:+ containerNameToLVName (Name c) in
  dconfig w' = dconfig w
  ∧ (∀ a b rr, (RsyncCopy a b, rr) ∉ evs)
  ∧ (∀ args rr, (Exec "mount" args, rr) ∉ evs)
  ∧ (∀ args rr, (Exec "lvremove" args, rr) ∉ evs)
  ∧ (∀ d rc, (Exec "lvchange" ["-ay"; "-pr"; d], rc) ∉ evs)
  ∧ (r = None →
     fs w' !! (Path c +:+ ".lv") = Some (FsSymlink dev)
     ∧ ∃ ra rt,
         (Exec "lvcreate" ["-kn"; "-n"; containerNameToLVName (Name c); "-s";
                           "/dev/" +:+ vgName s +:+ "/"
                           +:+ containerNameToLVName (Name src)], ra) ∈ evs
         ∧ err ra = None
         ∧ (CTemplateApply (Name c) "copy", rt) ∈ evs ∧ err rt = None).
Proof.
  intros [H Htr] Hsrc dev. subst dev.
  unfold ContainerCopy in H. unfold_prims H.
  rewrite bool_decide_eq_true_2 in H by done.
  unfold createSnapshotContainer, createSnapshotLV in H.
  unfold_prims H. exec H.
  all: leaf3 H Htr; split_and!; try done; try none_in.
  all: try (intros a b rr; not_in).
  all: intros _; split; [apply lookup_insert_eq|].
  all: do 2 eexists; split_and!; [in_events|done|in_events|done].
Qed.

Lemma ContainerCopy_linked_source_witness :
  let m := ContainerCopy Sample.envOk Sample.driver Sample.c2 Sample.c1 in
  fs (m Sample.linkedConfigured).2 !! "/var/lib/lxd/containers/c2.lv"
  = Some (FsSymlink "/dev/vg0/c2").
Proof.
  intros m.
  assert (Hruns : runs m Sample.linkedConfigured None (m Sample.linkedConfigured).2
                    (events m Sample.linkedConfigured))
    by (split; by vm_compute).
  subst m. destruct (ContainerCopy_linked_source _ _ _ _ _ _ _ _ Hruns)
    as (_ & _ & _ & _ & _ & Hok).
  { vm_compute. eauto. }
  by destruct (Hok eq_refl) as [Hlink _].
Defined.

(** ** Restore and snapshots *)

(** X19: [ContainerRestore] changes neither links nor configuration. It first
    removes the volume of the container, once; if that fails it returns an
    error without creating anything; if it succeeds, the volume is cloned
    from the source, and the restore succeeds exactly when the clone and its
    read-write activation both succeeded: after a failed clone the volume of
    the container is gone. *)
Theorem ContainerRestore_outcome env s c src w r w' evs :
  runs (ContainerRestore env s c src) w r w' evs →
  let dest := containerNameToLVName (Name c) in
  let dev := "/dev/" +:+ vgName s +:+ "/" +:+ dest in
  let clone :=
    Exec "lvcreate" ["-kn"; "-n"; dest; "-s";
                     "/dev/" +:+ vgName s +:+ "/" +:+ containerNameToLVName (Name src)] in
  fs w' = fs w ∧ dconfig w' = dconfig w
  ∧ ∃ rr post,
      evs = (Exec "lvremove" ["-f"; vgName s +:+ "/" +:+ dest], rr) :: post
      ∧ (∀ args r2, (Exec "lvremove" args, r2) ∉ post)
      ∧ (err rr ≠ None → r ≠ None ∧ ∀ args ra, (Exec "lvcreate" args, ra) ∉ post)
      ∧ (err rr = None →
         ∃ ra, (clone, ra) ∈ post
               ∧ (r = None ↔
                  err ra = None
                  ∧ ∃ rc, (Exec "lvchange" ["-ay"; dev], rc) ∈ post ∧ err rc = None)).
Proof.
  intros [H Htr] dest dev clone. subst dest dev clone.
  unfold ContainerRestore, removeLV, createSnapshotLV in H. unfold_prims H. exec H.
  all: leaf3 H Htr; split_and!; try done.
  all: do 2 eexists; split; [reflexivity|]; split_and!; try none_in.
  all: try (intros Hn; cbn [err] in Hn; first [discriminate Hn | by destruct Hn]).
  all: try (intros _; split; [done|none_in]).
  all: intros _; eexists; split; [in_events|].
  all: cbn [err]; split;
    [ intros Hr; first [discriminate Hr | split; [done|]; eexists; split; [in_events|done]]
    | intros [Hra (rc & Hin & Hrc)]; try done; elim_in Hin; by simplify_eq ].
Qed.

Lemma ContainerRestore_outcome_witness :
  let m := ContainerRestore Sample.envOk Sample.driver Sample.c1 Sample.snap0 in
  fs (m Sample.withSnapshot).2 = fs Sample.withSnapshot
  ∧ dconfig (m Sample.withSnapshot).2 = dconfig Sample.withSnapshot.
Proof.
  intros m. run_of m Sample.withSnapshot Hruns. subst m.
  destruct (ContainerRestore_outcome _ _ _ _ _ _ _ _ Hruns) as (Hfs & Hcfg & _).
  by split.
Defined.

(** X20: [ContainerSnapshotCreate] never activates a volume read-write and
    never removes one; when it succeeds, the volume of the snapshot was
    cloned from the volume of the source and activated read-only, and the
    link [<path of the snapshot>.lv] points at its device. *)
Theorem ContainerSnapshotCreate_read_only env s snap src w r w' evs :
  runs (ContainerSnapshotCreate env s snap src) w r w' evs →
  let dev := "/dev/" +:+ vgName s +:+ "/" +:+ containerNameToLVName (Name snap) in
  dconfig w' = dconfig w
  ∧ (∀ d rc, (Exec "lvchange" ["-ay"; d], rc) ∉ evs)
  ∧ (∀ args rr, (Exec "lvremove" args, rr) ∉ evs)
  ∧ (r = None →
     fs w' !! (Path snap +:+ ".lv") = Some (FsSymlink dev)
     ∧ ∃ ra rc,
         (Exec "lvcreate" ["-kn"; "-n"; containerNameToLVName (Name snap); "-s";
                           "/dev/" +:+ vgName s +:+ "/"
                           +:+ containerNameToLVName (Name src)], ra) ∈ evs
         ∧ err ra = None
         ∧ (Exec "lvchange" ["-ay"; "-pr"; dev], rc) ∈ evs ∧ err rc = None).
Proof.
  intros [H Htr] dev. subst dev.
  unfold ContainerSnapshotCreate, createSnapshotContainer, createSnapshotLV in H.
  unfold_prims H. exec H.
  all: leaf3 H Htr; split_and!; try done; try none_in.
  all: intros _; split; [apply lookup_insert_eq|].
  all: do 2 eexists; split_and!; [in_events|done|in_events|done].
Qed.

Lemma ContainerSnapshotCreate_read_only_witness :
  let m := ContainerSnapshotCreate Sample.envOk Sample.driver Sample.snap0 Sample.c1 in
  fs (m Sample.linkedConfigured).2 !! "/var/lib/lxd/snapshots/c1/snap0.lv"
  = Some (FsSymlink "/dev/vg0/c1-snap0").
Proof.
  intros m.
  assert (Hruns : runs m Sample.linkedConfigured None (m Sample.linkedConfigured).2
                    (events m Sample.linkedConfigured))
    by (split; by vm_compute).
  subst m. destruct (ContainerSnapshotCreate_read_only _ _ _ _ _ _ _ _ Hruns) as (_ & _ & _ & Hok).
  by destruct (Hok eq_refl) as [Hlink _].
Defined.



(** X22: [ContainerSnapshotStop] first unmounts the path of the snapshot; if
    that fails it returns an error and does nothing more, so the overlay
    volume stays; if it succeeds the next call removes the volume named
    after the snapshot with the suffix [-rw], the volume that
    [ContainerSnapshotStart] makes, and the stop succeeds exactly when that
    removal does. *)
Theorem ContainerSnapshotStop_outcome env s c w r w' evs :
  runs (ContainerSnapshotStop env s c) w r w' evs →
  let overlay := containerNameToLVName (Name c) +:+ "-rw" in
  fs w' = fs w ∧ dconfig w' = dconfig w
  ∧ ∃ ru post,
      evs = (SysUnmount (Path c), ru) :: post
      ∧ (err ru ≠ None → r ≠ None ∧ post = [])
      ∧ (err ru = None →
         ∃ rr tail,
           post = (Exec "lvremove" ["-f"; vgName s +:+ "/" +:+ overlay], rr) :: tail
           ∧ (r = None ↔ err rr = None)).
Proof.
  intros [H Htr] overlay. subst overlay.
  unfold ContainerSnapshotStop, ContainerStop, removeLV in H.
  rewrite containerNameToLVName_rw in H. unfold_prims H. exec H.
  all: leaf3 H Htr; split_and!; try done.
  all: do 2 eexists; split; [reflexivity|]; cbn [err]; split.
  all: try (intros Hn; first [discriminate Hn | by destruct Hn]).
  all: try (intros _; by split).
  all: intros _; do 2 eexists; split; [reflexivity|]; by cbn [err].
Qed.

Lemma ContainerSnapshotStop_outcome_witness :
  let env := Sample.envFail Sample.isUnmount (Sample.failed "device busy") in
  let m := ContainerSnapshotStop env Sample.driver Sample.snap0 in
  (m Sample.withSnapshot).1 ≠ None
  ∧ events m Sample.withSnapshot
    = [(SysUnmount "/var/lib/lxd/snapshots/c1/snap0", Sample.failed "device busy")].
Proof.
  intros env m. run_of m Sample.withSnapshot Hruns. subst m.
  destruct (ContainerSnapshotStop_outcome _ _ _ _ _ _ _ Hruns)
    as (_ & _ & ru & post & Hevs & Hfail & _).
  assert (Hru : ru = Sample.failed "device busy").
  { vm_compute in Hevs. by injection Hevs as <- _. }
  subst ru. destruct Hfail as [Hr Hpost]; [discriminate|].
  split; [exact Hr|]. rewrite Hevs, Hpost. reflexivity.
Defined.

(** X23: [ContainerSnapshotDelete] runs [ContainerDelete]; an error of it is
    returned wrapped with the name of the snapshot and nothing more is
    done. Otherwise the result is [nil], whatever the removal of the parent
    directory does: only the parent directory can differ, the only call made
    is its removal, and it is not even tried while another entry lies under
    it. *)
Theorem ContainerSnapshotDelete_outcome env s c w r w' evs :
  runs (ContainerSnapshotDelete env s c) w r w' evs →
  ∃ d w1 evs1 evs2,
    runs (ContainerDelete env s c) w d w1 evs1 ∧ evs = evs1 ++ evs2
    ∧ match d with
      | Some e =>
          r = Errorf ("Error deleting snapshot " +:+ Name c +:+ ": " +:+ Error e)
          ∧ w' = w1
      | None =>
          let parent := filepath.Dir (Path c) in
          r = None
          ∧ (∀ p, p ≠ parent → fs w' !! p = fs w1 !! p)
          ∧ (∀ c' rr, (c', rr) ∈ evs2 → c' = OsRemove parent)
          ∧ (∀ q, is_Some (fs w1 !! q) → under parent q = true → q ≠ parent →
               fs w' = fs w1 ∧ evs2 = [])
      end.
Proof.
  intros [H Htr]. unfold ContainerSnapshotDelete in H. unfold bind at 1 in H.
  destruct (ContainerDelete env s c w) as [d w1] eqn:Ed.
  pose proof Ed as Ed'. apply ContainerDelete_spec in Ed' as (_ & evs1 & Htr1 & _).
  exists d, w1, evs1.
  destruct d as [e|].
  - injection H as <- <-. exists []. rewrite Htr1 in Htr. apply app_inv_head in Htr.
    rewrite app_nil_r. by split_and!.
  - unfold PathIsEmpty in H. unfold_prims H.
    repeat (norm H; first [step_call H | step_match H]); norm H.
    all: injection H as <- <-; cbn [fs dconfig trace with_fs] in Htr |- *.
    all: rewrite Htr1 in Htr; rewrite <- ?app_assoc in Htr; apply app_inv_head in Htr;
      subst evs.
    all: eexists; split_and!;
      [done | first [reflexivity | symmetry; apply app_nil_r] | done | ..].
    all: try (intros p Hp; by rewrite ?lookup_delete_ne).
    all: try (intros c' rr Hin; elim_in Hin; by simplify_eq).
    all: try (intros; by split).
    all: intros q Hq Hu Hne; destruct Hq as [n Hq]; exfalso.
    all: match goal with Hb : bool_decide _ = true |- _ =>
           apply bool_decide_eq_true_1 in Hb;
           assert (Hin : filter (λ kv : string * FsNode,
                           under (filepath.Dir (Path c)) kv.1 = true
                           ∧ kv.1 ≠ filepath.Dir (Path c)) (fs w1) !! q = Some n)
             by (by apply map_lookup_filter_Some_2);
           rewrite Hb in Hin; by rewrite lookup_empty in Hin
         end.
Qed.

Lemma ContainerSnapshotDelete_outcome_witness :
  let env := Sample.envFail (Sample.isExec "lvremove") (Sample.failed "exit status 5") in
  let m := ContainerSnapshotDelete env Sample.driver Sample.snap0 in
  (m Sample.withSnapshot).1
  = Errorf "Error deleting snapshot c1/snap0: Could not remove LV named c1-snap0".
Proof.
  intros env m. run_of m Sample.withSnapshot Hruns. subst m.
  destruct (ContainerSnapshotDelete_outcome _ _ _ _ _ _ _ Hruns)
    as (d & w1 & evs1 & evs2 & [Hd _] & _ & Hcase).
  vm_compute in Hd. injection Hd as <- <-.
  destruct Hcase as [Hr _]. exact Hr.
Defined.

(** X24: [ContainerSnapshotRename] never touches the configuration. Its first
    call renames the volume; if that fails, it returns an error and the
    filesystem is unchanged. Otherwise the next call moves the link to
    [snapshots/<new volume name>.lv], and the result is [nil] exactly when
    that move succeeds: no failure of the tidying of directories is
    reported, and a failed move does not undo the renaming of the volume.
    For a name without delimiter no directory is tidied. *)
Theorem ContainerSnapshotRename_outcome env s c newContainerName w r w' evs :
  runs (ContainerSnapshotRename env s c newContainerName) w r w' evs →
  let oldName := containerNameToLVName (Name c) in
  let newName := containerNameToLVName newContainerName in
  dconfig w' = dconfig w
  ∧ ∃ rl post,
      evs = (Exec "lvrename" [vgName s; oldName; newName], rl) :: post
      ∧ (err rl ≠ None → r ≠ None ∧ fs w' = fs w ∧ ∀ a b rr, (OsRename a b, rr) ∉ post)
      ∧ (err rl = None →
         ∃ rn post2,
           post = (OsRename (Path c +:+ ".lv") (containerPath newName true +:+ ".lv"), rn)
                  :: post2
           ∧ (r = None ↔ err rn = None)
           ∧ (err rn ≠ None →
              fs w' = fs w ∧ ∀ args rr, (Exec "lvrename" args, rr) ∉ post2)
           ∧ (err rn = None → strings.Contains (Name c) "/" = false → post2 = [])).
Proof.
  intros [H Htr] oldName newName. subst oldName newName.
  unfold ContainerSnapshotRename, PathIsEmpty in H. unfold_prims H.
  repeat (norm H; first [step_call H | step_match H]); norm H.
  all: leaf3 H Htr; split; [done|].
  all: do 2 eexists; split; [reflexivity|]; cbn [err]; split.
  all: try (intros Hn; by destruct Hn).
  all: try (intros _; split_and!; try done; intros a b rr; not_in).
  all: try (intros Hn; discriminate Hn).
  all: intros _; do 2 eexists; split; [reflexivity|]; cbn [err]; split_and!; try done.
  all: try (intros Hn; by destruct Hn).
  all: try (intros _; split; [done|none_in]).
Qed.

Lemma ContainerSnapshotRename_outcome_witness :
  let m := ContainerSnapshotRename Sample.envOk Sample.driver Sample.snap0 "c1/snap1" in
  dconfig (m Sample.withSnapshot).2 = dconfig Sample.withSnapshot.
Proof.
  intros m. run_of m Sample.withSnapshot Hruns. subst m.
  by destruct (ContainerSnapshotRename_outcome _ _ _ _ _ _ _ _ Hruns) as [Hcfg _].
Defined.

(** ** More on renaming *)

(** Induction on a container through the snapshots it lists. *)
Lemma container_snaps_ind (P : container → Prop) :
  (∀ c, Forall P (snaps c) → P c) → ∀ c, P c.
Proof.
  intros step. fix IH 1. intros c. apply step.
  destruct c as [n p pr sn l]. cbn [snaps].
  induction l as [|x l IHl]; constructor; [apply IH | exact IHl].
Qed.

Lemma renameSnapshots_spec rename newName l :
  Forall (λ snap, ∀ n, renames_only (rename snap n)) l →
  renames_only (renameSnapshots rename newName l).
Proof.
  induction 1 as [|snap l Hsnap _ IH]; unfold renames_only; intros w r w' H;
    cbn [renameSnapshots] in H.
  - injection H as <- <-. split; [done|]. exists []. split; [by rewrite app_nil_r|]. apply Forall_nil.
    done.
  - unfold bind at 1 in H. destruct (rename snap _ w) as [e w1] eqn:E.
    apply Hsnap in E as (Hcfg & evs1 & Htr1 & Hev1).
    destruct e as [e|].
    + injection H as <- <-. split; [done|]. by exists evs1.
    + apply IH in H as (Hcfg2 & evs2 & Htr2 & Hev2).
      split; [congruence|]. exists (evs1 ++ evs2). split.
      * by rewrite Htr2, Htr1, app_assoc.
      * by apply Forall_app.
Qed.

Ltac step_rename H :=
  lazymatch type of H with
  | context [renameSnapshots ?rn ?n ?l ?w] =>
      let r := fresh "r" in let w1 := fresh "w" in let E := fresh "E" in
      destruct (renameSnapshots rn n l w) as [r w1] eqn:E;
      apply renameSnapshots_spec in E; [absorb E w1|assumption]
  end.

Lemma ContainerRename_spec env s c newContainerName :
  renames_only (ContainerRename env s c newContainerName).
Proof.
  revert newContainerName. induction c as [c IH] using container_snaps_ind.
  intros newContainerName w r w' H.
  rewrite ContainerRename_unfold in H. unfold ContainerRename_body in H.
  unfold_prims H.
  repeat (norm H; first [step_rename H | step_call H | step_match H]); norm H.
  all: close_spec H.
Qed.

(** X25: however many snapshots it recurses over, and whatever fails,
    [ContainerRename] only renames volumes, renames links, lists snapshots
    and logs, and it leaves the configuration alone. *)
Theorem ContainerRename_only_renames env s c newContainerName w r w' evs :
  runs (ContainerRename env s c newContainerName) w r w' evs →
  dconfig w' = dconfig w ∧ events_in rename_call evs.
Proof.
  intros [H Htr]. apply ContainerRename_spec in H as (Hcfg & evs' & Htr' & Hev).
  split; [done|]. rewrite Htr' in Htr. by apply app_inv_head in Htr as <-.
Qed.

Lemma ContainerRename_only_renames_witness :
  let m := ContainerRename Sample.envOk Sample.driver Sample.c1snap "c3" in
  events_in rename_call (events m Sample.withSnapshot).
Proof.
  intros m. run_of m Sample.withSnapshot Hruns. subst m.
  by destruct (ContainerRename_only_renames _ _ _ _ _ _ _ _ Hruns) as [_ Hev].
Defined.

(** X26: the first call of [ContainerRename] renames the volume. If it fails,
    the error names both volume names, the filesystem is unchanged and no
    link is renamed. If it succeeds, the next call moves the link to
    [containers/<new volume name>.lv]; when that fails its error is returned
    as it is, the filesystem is unchanged, the snapshots are not looked at,
    and the volume is not renamed back. *)
Theorem ContainerRename_failure env s c newContainerName w r w' evs :
  runs (ContainerRename env s c newContainerName) w r w' evs →
  let oldName := containerNameToLVName (Name c) in
  let newName := containerNameToLVName newContainerName in
  ∃ rl post,
    evs = (Exec "lvrename" [vgName s; oldName; newName], rl) :: post
    ∧ (∀ e, err rl = Some e →
         r = Errorf ("Failed to rename a container LV, oldName='" +:+ oldName
                     +:+ "', newName='" +:+ newName +:+ "', err='" +:+ Error e +:+ "'")
         ∧ fs w' = fs w
         ∧ ∀ a b rr, (OsRename a b, rr) ∉ post)
    ∧ (err rl = None →
       ∃ rn post2,
         post = (OsRename (Path c +:+ ".lv") (containerPath newName false +:+ ".lv"), rn)
                :: post2
         ∧ (∀ e, err rn = Some e →
              r = Some e ∧ fs w' = fs w
              ∧ (∀ args rr, (Exec "lvrename" args, rr) ∉ post2)
              ∧ (∀ n rs, (CSnapshots n, rs) ∉ post2))).
Proof.
  intros [H Htr] oldName newName. subst oldName newName.
  rewrite ContainerRename_unfold in H. unfold ContainerRename_body in H.
  unfold_prims H.
  repeat (norm H; first [step_call H | step_match H]); norm H.
  all: try match type of H with
    | renameSnapshots _ _ _ _ = _ =>
        apply renameSnapshots_spec in H as (_ & evr & Htrr & _);
          [cbn [trace] in Htrr; rewrite Htrr in Htr
          |apply Forall_forall; intros ? _ ?; apply ContainerRename_spec]
    end.
  all: try (injection H; clear H; intros; subst); cbn [fs dconfig trace] in Htr |- *.
  all: rewrite <- ?app_assoc in Htr; apply app_inv_head in Htr; subst evs.
  all: do 2 eexists; split; [reflexivity|]; cbn [err]; split.
  all: try (intros e' He'; discriminate He').
  all: try (intros e' [= <-]; split_and!; try done; intros a b rr; not_in).
  all: try (intros Hn; discriminate Hn).
  all: intros _; do 2 eexists; split; [reflexivity|]; cbn [err].
  all: try (intros e' He'; discriminate He').
  all: intros e' [= <-]; split_and!; try done; none_in.
Qed.

Lemma ContainerRename_failure_witness :
  let env := Sample.envFail (Sample.isExec "lvrename") (Sample.failed "exit status 5") in
  let m := ContainerRename env Sample.driver Sample.c1snap "c3" in
  fs (m Sample.withSnapshot).2 = fs Sample.withSnapshot.
Proof.
  intros env m. run_of m Sample.withSnapshot Hruns. subst m.
  destruct (ContainerRename_failure _ _ _ _ _ _ _ _ Hruns)
    as (rl & post & Hevs & Hfail & _).
  assert (Hrl : rl = Sample.failed "exit status 5").
  { vm_compute in Hevs. by injection Hevs as <- _. }
  subst rl. by destruct (Hfail (ErrorString "exit status 5") eq_refl) as (_ & Hfs & _).
Defined.

(** X27: when [ContainerRename] succeeds on a snapshot entity, it has made two
    calls, and the link of the snapshot, if there was one, is now under
    [containers], not under [snapshots], at the volume name of the new
    name. *)
Theorem ContainerRename_snapshot_link env s c newContainerName w w' evs :
  runs (ContainerRename env s c newContainerName) w None w' evs →
  IsSnapshot c = true →
  let newName := containerNameToLVName newContainerName in
  let oldLink := Path c +:+ ".lv" in
  let newLink := VarPath ["containers"; newName] +:+ ".lv" in
  map fst evs = [Exec "lvrename" [vgName s; containerNameToLVName (Name c); newName];
                 OsRename oldLink newLink]
  ∧ (∀ n, fs w !! oldLink = Some n →
       fs w' !! newLink = Some n ∧ (oldLink ≠ newLink → fs w' !! oldLink = None)).
Proof.
  intros [H Htr] Hs newName oldLink newLink. subst newName oldLink newLink.
  rewrite ContainerRename_unfold in H. unfold ContainerRename_body in H.
  unfold_prims H. rewrite Hs in H.
  repeat (norm H; first [step_call H | step_match H]); norm H.
  all: try discriminate H.
  all: leaf3 H Htr; (split; [reflexivity|]); intros n' Hn'; rewrite Hn'.
  split; [apply lookup_insert_eq|].
  intros Hne. rewrite lookup_insert_ne by done. apply lookup_delete_eq.
Qed.

Lemma ContainerRename_snapshot_link_witness :
  let m := ContainerRename Sample.envOk Sample.driver Sample.snap0 "c1/snap1" in
  fs (m Sample.withSnapshot).2 !! "/var/lib/lxd/containers/c1-snap1.lv"
  = Some (FsSymlink "/dev/vg0/c1-snap0")
  ∧ fs (m Sample.withSnapshot).2 !! "/var/lib/lxd/snapshots/c1/snap0.lv" = None.
Proof.
  intros m.
  assert (Hruns : runs m Sample.withSnapshot None (m Sample.withSnapshot).2 (events m Sample.withSnapshot))
    by (split; by vm_compute).
  subst m. destruct (ContainerRename_snapshot_link _ _ _ _ _ _ _ Hruns eq_refl) as [_ Hlink].
  destruct (Hlink (FsSymlink "/dev/vg0/c1-snap0")) as [Hnew Hold]; [by vm_compute|].
  split; [exact Hnew | by apply Hold].
Defined.

(** ** More on the initialisation *)

(** X28: [Init] changes neither the filesystem nor the configuration, and
    always sets the type of the driver and its name. The storage it returns
    is [nil] exactly when [lvm version] failed, and the driver itself
    otherwise, also with an error. After a successful [lvm version] the
    version of the driver is what the loop over the lines of its output
    collects. A failure of the shared initialisation is returned as it is,
    with the driver, and nothing else is called. *)
Theorem Init_outcome env typeName s config w s' out w' evs :
  runs (Init env typeName s config) w (s', out) w' evs →
  fs w' = fs w ∧ dconfig w' = dconfig w
  ∧ sType s' = Some storageTypeLvm ∧ sTypeName s' = typeName storageTypeLvm
  ∧ (∀ st e, out = Returned st e →
       (st = None ∨ st = Some s')
       ∧ (st = None ↔ ∃ rl, (Exec "lvm" ["version"], rl) ∈ evs ∧ err rl ≠ None))
  ∧ (∀ rl, (Exec "lvm" ["version"], rl) ∈ evs → err rl = None →
       sTypeVersion s'
       = lvmVersionFields 0 (strings.Split (output rl) (ascii_of_nat 10)) "")
  ∧ (∀ ri, (InitShared, ri) ∈ evs → err ri ≠ None →
       out = Returned (Some s') (err ri) ∧ evs = [(InitShared, ri)]).
Proof.
  intros [H Htr]. unfold Init, storageLVMCheckVolumeGroup in H. unfold_prims H.
  destruct (config !! "vgName") as [[|v|]|] eqn:Hc; cbn [default from_option id] in H.
  all: exec H.
  all: injection H as <- <- <-; cbn [fs dconfig trace sType sTypeName sTypeVersion] in Htr |- *;
    rewrite <- ?app_assoc in Htr; apply app_inv_head in Htr; subst.
  all: split_and!; try done.
  all: try (intros st e' Hst; try discriminate Hst; injection Hst as <- <-;
            split; [by (left + right)|]; split;
            [ intros Hn; first [discriminate Hn | eexists; split; [in_events|by cbn]]
            | intros (rl & Hin & Hrl); elim_in Hin; simplify_eq;
              first [done | by destruct Hrl] ]).
  all: try (intros rl Hin Hrl; elim_in Hin; by simplify_eq).
  all: try (intros ri Hin Hri; elim_in Hin; simplify_eq; first [done | by destruct Hri]).
Qed.

Lemma Init_outcome_witness :
  let m := Init Sample.envOk Sample.typeName Sample.unbound ∅ in
  sTypeName (m Sample.fresh).1.1 = "lvm" ∧ dconfig (m Sample.fresh).2 = dconfig Sample.fresh.
Proof.
  intros m.
  assert (Hruns : runs m Sample.fresh ((m Sample.fresh).1.1, (m Sample.fresh).1.2)
                    (m Sample.fresh).2 (events m Sample.fresh))
    by (split; by vm_compute).
  subst m. destruct (Init_outcome _ _ _ _ _ _ _ _ _ Hruns) as (_ & Hcfg & _ & Hname & _).
  split; [exact Hname | exact Hcfg].
Defined.

Lemma SplitAfterN2_no_sep (sep : ascii) line :
  strings.Contains line (String sep "") = false →
  strings.SplitAfterN2 line sep = [line].
Proof.
  induction line as [|a line IH]; [done|].
  rewrite Contains_single_cons. cbn [strings.SplitAfterN2].
  case_bool_decide as Ha; [discriminate|]. cbn [orb]. intros Hl.
  destruct (Ascii.eqb_spec a sep) as [->|_]; [done|]. by rewrite IH.
Qed.

Lemma SplitAfterN2_sep (sep : ascii) key val :
  strings.Contains key (String sep "") = false →
  strings.SplitAfterN2 (key +:+ String sep val) sep = [key +:+ String sep ""; val].
Proof.
  induction key as [|a key IH].
  - intros _. change ("" +:+ String sep val) with (String sep val).
    cbn [strings.SplitAfterN2]. by rewrite Ascii.eqb_refl.
  - rewrite Contains_single_cons.
    change (String a key +:+ String sep val) with (String a (key +:+ String sep val)).
    cbn [strings.SplitAfterN2].
    case_bool_decide as Ha; [discriminate|]. cbn [orb]. intros Hl.
    destruct (Ascii.eqb_spec a sep) as [->|_]; [done|]. by rewrite IH.
Qed.

(** A line without a colon adds nothing to the version. *)
Lemma lvmVersionFields_skip idx line rest version :
  strings.Contains line ":" = false →
  lvmVersionFields idx (line :: rest) version = lvmVersionFields (S idx) rest version.
Proof.
  intros Hl. cbn [lvmVersionFields]. by rewrite (SplitAfterN2_no_sep ":" line Hl).
Qed.

(** A line with a colon adds the text after its first colon, trimmed, and
    before it the separator unless the line is the first of the output. *)
Lemma lvmVersionFields_field idx key val rest version :
  strings.Contains key ":" = false →
  lvmVersionFields idx ((key +:+ ":" +:+ val) :: rest) version
  = lvmVersionFields (S idx) rest
      ((if (0 <? idx)%nat then version +:+ " / " else version)
       +:+ strings.TrimSpace val).
Proof.
  intros Hk. cbn [lvmVersionFields].
  change (key +:+ ":" +:+ val) with (key +:+ String ":" val).
  by rewrite (SplitAfterN2_sep ":" key val Hk).
Qed.

(** X29: the loop of [Init] over the output of [lvm version] adds the separator
    by the index of the line, not by what it has collected: when the first
    line has no colon and the second has one, the version starts with the
    separator. *)
Theorem lvmVersionFields_leading_separator banner key val rest :
  strings.Contains banner ":" = false →
  strings.Contains key ":" = false →
  lvmVersionFields 0 (banner :: (key +:+ ":" +:+ val) :: rest) ""
  = lvmVersionFields 2 rest (" / " +:+ strings.TrimSpace val).
Proof.
  intros Hb Hk. by rewrite lvmVersionFields_skip, lvmVersionFields_field.
Qed.

Lemma lvmVersionFields_leading_separator_witness :
  lvmVersionFields 0 ["  WARNING"; "  LVM version" +:+ ":" +:+ "     2.02.98"] ""
  = " / 2.02.98".
Proof.
  exact (lvmVersionFields_leading_separator "  WARNING" "  LVM version" "     2.02.98" []
           eq_refl eq_refl).
Defined.
